(** * The command router of musicbot/bot.py

    A shallow embedding of [MusicBot.on_message], [MusicBot.safe_send_message]
    and of the command handlers that interpret their arguments
    ([cmd_roll], [cmd_xkcd], [cmd_timer], [cmd_help]).

    Python text is modelled by [string] over the ASCII range.  Calls that
    leave the file (the chat platform, the random generator, HTTP, the
    conversational collaborator, the handler that the router invokes) are
    effects of a small free monad; a run of a program is obtained from an
    oracle that answers the effects one after the other. *)

From stdpp Require Import gmap strings list pretty.
From Stdlib Require Import Ascii ZArith Lia.

Open Scope Z_scope.

(** ** Python text primitives *)

Module Text.

Definition code (c : ascii) : N := Ascii.N_of_ascii c.

(** [str.isspace] on one ASCII character: TAB, LF, VT, FF, CR, the four
    separators FS, GS, RS, US and the blank. *)
Definition isspace (c : ascii) : bool :=
  ((9 <=? code c)%N && (code c <=? 13)%N) || ((28 <=? code c)%N && (code c <=? 32)%N).

Definition isdigit_char (c : ascii) : bool :=
  (48 <=? code c)%N && (code c <=? 57)%N.

Definition digit_value (c : ascii) : Z := Z.of_N (code c) - 48.

Definition lower_char (c : ascii) : ascii :=
  if (65 <=? code c)%N && (code c <=? 90)%N
  then Ascii.ascii_of_N (code c + 32)
  else c.

(** [s.lower()] *)
Fixpoint lower (s : string) : string :=
  match s with
  | EmptyString => EmptyString
  | String c s' => String (lower_char c) (lower s')
  end.

(** [s.lstrip()], [s.rstrip()], [s.strip()] *)
Fixpoint lstrip (s : string) : string :=
  match s with
  | String c s' => if isspace c then lstrip s' else s
  | EmptyString => EmptyString
  end.

Fixpoint rstrip (s : string) : string :=
  match s with
  | EmptyString => EmptyString
  | String c s' =>
      match rstrip s' with
      | EmptyString => if isspace c then EmptyString else String c EmptyString
      | r => String c r
      end
  end.

Definition strip (s : string) : string := rstrip (lstrip s).

(** [s.split()]: the maximal runs of non-blank characters, in order. *)
Fixpoint split_go (cur : option string) (s : string) : list string :=
  match s with
  | EmptyString => option_list (String.rev <$> cur)
  | String c s' =>
      if isspace c
      then option_list (String.rev <$> cur) ++ split_go None s'
      else split_go (Some (String c (default EmptyString cur))) s'
  end.

Definition split (s : string) : list string := split_go None s.

(** [s.split(sep)] for a one-character separator: every piece, empty
    ones included. *)
Fixpoint split_on (sep : ascii) (s : string) : list string :=
  match s with
  | EmptyString => [EmptyString]
  | String c s' =>
      if decide (c = sep) then EmptyString :: split_on sep s'
      else match split_on sep s' with
           | p :: ps => String c p :: ps
           | [] => [String c EmptyString]
           end
  end.

(** [s.split(sep, 1)] for a one-character separator. *)
Fixpoint split_once (sep : ascii) (s : string) : list string :=
  match s with
  | EmptyString => [EmptyString]
  | String c s' =>
      if decide (c = sep) then [EmptyString; s']
      else match split_once sep s' with
           | p :: ps => String c p :: ps
           | [] => [String c EmptyString]
           end
  end.

(** [sep.join(l)] *)
Fixpoint join (sep : string) (l : list string) : string :=
  match l with
  | [] => EmptyString
  | [x] => x
  | x :: rest => x +:+ sep +:+ join sep rest
  end.

(** [s.startswith(p)] *)
Definition startswith (s p : string) : bool := String.prefix p s.

(** [s[n:]] *)
Fixpoint drop (n : nat) (s : string) : string :=
  match n, s with
  | O, _ => s
  | S k, String _ s' => drop k s'
  | S _, EmptyString => EmptyString
  end.

(** [s.find(sub) != -1] *)
Fixpoint contains (sub s : string) : bool :=
  String.prefix sub s ||
  match s with
  | EmptyString => false
  | String _ s' => contains sub s'
  end.

(** [s.replace(old, new)]: the occurrences of [old] are taken from left to
    right and do not overlap; [skip] counts the characters of the current
    occurrence that are still to be dropped. *)
Fixpoint replace_go (old new : string) (skip : nat) (s : string) : string :=
  match s with
  | EmptyString => EmptyString
  | String c s' =>
      match skip with
      | S k => replace_go old new k s'
      | O =>
          if String.prefix old s
          then new +:+ replace_go old new (String.length old - 1) s'
          else String c (replace_go old new O s')
      end
  end.

Fixpoint intersperse (new s : string) : string :=
  match s with
  | EmptyString => new
  | String c s' => new +:+ String c (intersperse new s')
  end.

Definition replace (old new s : string) : string :=
  match old with
  | EmptyString => intersperse new s
  | _ => replace_go old new O s
  end.

(** [s.isdigit()] *)
Fixpoint all_digits (s : string) : bool :=
  match s with
  | EmptyString => true
  | String c s' => isdigit_char c && all_digits s'
  end.

Definition isdigit (s : string) : bool :=
  match s with
  | EmptyString => false
  | _ => all_digits s
  end.

(** The digits of a decimal literal: groups of digits, two groups
    separated by one underscore. *)
Fixpoint digits_go (acc : Z) (after_digit : bool) (s : string) : option Z :=
  match s with
  | EmptyString => if after_digit then Some acc else None
  | String c s' =>
      if isdigit_char c then digits_go (10 * acc + digit_value c) true s'
      else if decide (c = "_"%char) then
             if after_digit then digits_go acc false s' else None
           else None
  end.

(** [s.isascii()]: every character is below 128. *)
Fixpoint isascii (s : string) : bool :=
  match s with
  | EmptyString => true
  | String c s' => (code c <? 128)%N && isascii s'
  end.

(** The blanks that [int] skips around a literal in ASCII text: TAB, LF,
    VT, FF, CR and the space.  The separators FS, GS, RS, US, which
    [str.strip] removes, are no blanks here: [int] rejects a literal next
    to one of them. *)
Definition isblank_int (c : ascii) : bool :=
  ((9 <=? code c)%N && (code c <=? 13)%N) || (code c =? 32)%N.

Fixpoint lstrip_int (s : string) : string :=
  match s with
  | String c s' => if isblank_int c then lstrip_int s' else s
  | EmptyString => EmptyString
  end.

Fixpoint rstrip_int (s : string) : string :=
  match s with
  | EmptyString => EmptyString
  | String c s' =>
      match rstrip_int s' with
      | EmptyString => if isblank_int c then EmptyString else String c EmptyString
      | r => String c r
      end
  end.

(** [int(s)] on ASCII text: the blanks of [int] around the literal are
    dropped, one sign is allowed; [None] stands for the ValueError of a
    malformed literal.  A result [Some n] is given on ASCII text only;
    outside ASCII, where [int] also reads the decimal digits of other
    scripts, [None] says nothing about [int]. *)
Definition int (s : string) : option Z :=
  match rstrip_int (lstrip_int s) with
  | String "-" d => Z.opp <$> digits_go 0 false d
  | String "+" d => digits_go 0 false d
  | d => digits_go 0 false d
  end.

(** ["%d" % n] and [str(n)] *)
Definition str_of_int (n : Z) : string := pretty n.

Definition newline : string := String "010"%char EmptyString.

End Text.

(** ** Exceptions *)

(** Modelled from the spec: the module musicbot/exceptions.py is not among
    the sources.  The router raises [PermissionsError] and names
    [CommandError], [HelpfulError], [ExtractionError] and [Signal] in its
    except clauses; the spec lists the permissions error among the
    application failures that the first clause catches, and the restart and
    terminate requests as the signals.  An application failure carries the
    message and the [expire_in] it was raised with. *)
Inductive failure_class : Type :=
  | CommandError | PermissionsError | HelpfulError | ExtractionError.

Inductive signal_class : Type := RestartSignal | TerminateSignal.

(** The exceptions of Python and of the client library that occur in the
    file; the router reads nothing from them. *)
Inductive builtin_class : Type :=
  | ValueError | TypeError | AttributeError | IndexError | KeyError
  | UnboundLocalError | OverflowError | Forbidden | NotFound | HTTPException.

Inductive exn : Type :=
  | Failure (cls : failure_class) (message : string) (expire_in : Z)
  | Signal (cls : signal_class)
  | Builtin (cls : builtin_class).

#[global] Instance failure_class_eq_dec : EqDecision failure_class.
Proof. solve_decision. Defined.
#[global] Instance signal_class_eq_dec : EqDecision signal_class.
Proof. solve_decision. Defined.
#[global] Instance builtin_class_eq_dec : EqDecision builtin_class.
Proof. solve_decision. Defined.

Inductive result (A : Type) : Type :=
  | Ok (a : A)
  | Err (e : exn).
Arguments Ok {A} a.
Arguments Err {A} e.

Definition class_repr (cls : failure_class) : string :=
  match cls with
  | CommandError => "<class 'musicbot.exceptions.CommandError'>"
  | PermissionsError => "<class 'musicbot.exceptions.PermissionsError'>"
  | HelpfulError => "<class 'musicbot.exceptions.HelpfulError'>"
  | ExtractionError => "<class 'musicbot.exceptions.ExtractionError'>"
  end.

(** ** Data model *)

Record User : Type := mkUser {
  user_id : string;
  user_name : string;
  user_mention : string;
  user_bot : bool
}.

(** [a == b] on users compares the identifiers. *)
Definition user_eqb (a b : User) : bool := bool_decide (user_id a = user_id b).

Record Channel : Type := mkChannel {
  channel_id : string;
  channel_name : string;
  is_private : bool
}.

Record Server : Type := mkServer { server_name : string }.

Record Message : Type := mkMessage {
  message_id : string;
  author : User;
  content : string;
  channel : Channel;
  server : option Server;
  raw_mentions : list string;
  raw_channel_mentions : list string
}.

Inductive Player : Type := mkPlayer (of_channel : string).

(** class Response *)
Record Response : Type := mkResponse {
  response_content : string;
  reply : bool;
  delete_after : Z
}.

Record Config : Type := mkConfig {
  command_prefix : string;
  owner_id : string;
  bound_channels : gset string;
  delete_messages : bool;
  delete_invoking : bool;
  debug_mode : bool
}.

(** What [self.permissions.for_user] returns, with the attributes that the
    router reads. *)
Record PermissionGroup : Type := mkGroup {
  group_name : string;
  command_whitelist : gset string;
  command_blacklist : gset string
}.

#[global] Instance User_eq_dec : EqDecision User.
Proof. solve_decision. Defined.
#[global] Instance Channel_eq_dec : EqDecision Channel.
Proof. solve_decision. Defined.
#[global] Instance Server_eq_dec : EqDecision Server.
Proof. solve_decision. Defined.
#[global] Instance Message_eq_dec : EqDecision Message.
Proof. solve_decision. Defined.

(** A declared parameter of a handler, as [inspect.signature] shows it:
    its name and, when it has one, the text of its default. *)
Record Param : Type := mkParam {
  param_name : string;
  param_default : option string
}.

(** A [cmd_] method: its parameters after [self], in order, and its
    docstring. *)
Record Handler : Type := mkHandler {
  handler_params : list Param;
  handler_doc : option string
}.

(** The values that the router puts into [handler_kwargs].  [VArgs] is the
    list object [args] itself, not a copy of it: what a handler finds in it
    is what the list holds when the handler runs.  [VList] is a list seen by
    a handler. *)
Inductive value : Type :=
  | VMessage (m : Message)
  | VChannel (c : Channel)
  | VUser (u : User)
  | VServer (s : option Server)
  | VPlayer (p : Player)
  | VPermissions (g : PermissionGroup)
  | VMembers (s : Server) (ids : list string)
  | VChannels (s : Server) (ids : list string)
  | VArgs
  | VList (l : list string)
  | VStr (s : string).

(** The bot object: configuration, own account, the permission lookup and
    the [cmd_] attributes in the order of [dir(self)]. *)
Record MusicBot : Type := mkBot {
  config : Config;
  user : User;
  permissions : User -> PermissionGroup;
  attributes : list (string * Handler)
}.

(** Library functions on text whose result the router only passes on. *)
Class Library : Type := {
  (** [textwrap.dedent] *)
  dedent : string -> string;
  (** [template.format(command_prefix=value)] *)
  str_format : string -> string -> result string;
  (** [BeautifulSoup(body, 'html.parser')('img')[index][attr]] *)
  img_attr : string -> nat -> string -> result string
}.

(** ** Effects *)

Inductive Effect : Type :=
  | E_send_message (dest : Channel) (text : string)
  | E_ensure_future_delete (m : Message) (after : option Z)
  | E_print (text : string)
  | E_print_exc (e : exn)
  | E_format_exc (e : exn)
  | E_get_player (c : Channel)
  | E_handler (command : string) (kwargs : gmap string value)
  | E_cleverbot_ask (text : string)
  | E_randint (a b : Z)
  | E_sleep (seconds : Z)
  | E_http_get (url : string).

Definition answer (e : Effect) : Type :=
  match e with
  | E_send_message _ _ => result Message
  | E_ensure_future_delete _ _ => unit
  | E_print _ => unit
  | E_print_exc _ => unit
  | E_format_exc _ => string
  | E_get_player _ => result Player
  | E_handler _ _ => result (option Response)
  | E_cleverbot_ask _ => result string
  | E_randint _ _ => Z
  | E_sleep _ => unit
  | E_http_get _ => result string
  end.

Inductive Prog (A : Type) : Type :=
  | Ret (a : A)
  | Throw (e : exn)
  | Do (eff : Effect) (k : answer eff -> Prog A).
Arguments Ret {A} a.
Arguments Throw {A} e.
Arguments Do {A} eff k.

Fixpoint bind {A B : Type} (p : Prog A) (f : A -> Prog B) : Prog B :=
  match p with
  | Ret a => f a
  | Throw e => Throw e
  | Do eff k => Do eff (fun x => bind (k x) f)
  end.

(** [try: p except e: h e] *)
Fixpoint try_except {A : Type} (p : Prog A) (h : exn -> Prog A) : Prog A :=
  match p with
  | Ret a => Ret a
  | Throw e => h e
  | Do eff k => Do eff (fun x => try_except (k x) h)
  end.

Definition perform (eff : Effect) : Prog (answer eff) := Do eff Ret.

(** An awaited call that gives a value or raises. *)
Definition lift {A : Type} (r : result A) : Prog A :=
  match r with
  | Ok a => Ret a
  | Err e => Throw e
  end.

Definition call (eff : Effect) {A : Type} (cast : answer eff -> result A) : Prog A :=
  Do eff (fun x => lift (cast x)).

Notation "x <- p ;; q" := (bind p (fun x => q))
  (at level 100, p at next level, right associativity).
Notation "p ;;; q" := (bind p (fun _ => q))
  (at level 100, right associativity).

(** ** Runs *)

Inductive Event : Type := Ev (eff : Effect) (ans : answer eff).

(** The environment answers the [n]-th effect of a run. *)
Definition Oracle : Type := nat -> forall eff : Effect, answer eff.

Fixpoint exec {A : Type} (w : Oracle) (n : nat) (p : Prog A) : list Event * result A :=
  match p with
  | Ret a => ([], Ok a)
  | Throw e => ([], Err e)
  | Do eff k =>
      let '(tr, r) := exec w (S n) (k (w n eff)) in
      (Ev eff (w n eff) :: tr, r)
  end.

Definition trace {A : Type} (w : Oracle) (p : Prog A) : list Event := fst (exec w O p).
Definition outcome {A : Type} (w : Oracle) (p : Prog A) : result A := snd (exec w O p).

(** ** The router *)

Section Router.
Context {L : Library}.

Definition nl : string := Text.newline.

(** Truth value of an [expire_in] argument: [None] and [0] are false. *)
Definition truthy (expire_in : option Z) : bool :=
  match expire_in with
  | Some n => negb (n =? 0)
  | None => false
  end.

Definition when (b : bool) (p : Prog unit) : Prog unit :=
  if b then p else Ret tt.

(** MusicBot.safe_send_message (the [tts] argument is never set). *)
Definition safe_send_message (dest : Channel) (text : string)
    (expire_in : option Z) (also_delete : option Message) (quiet : bool)
  : Prog (option Message) :=
  Do (E_send_message dest text) (fun sent =>
    match sent with
    | Ok msg =>
        when (truthy expire_in)
             (perform (E_ensure_future_delete msg expire_in)) ;;;
        match also_delete with
        | Some invoking => perform (E_ensure_future_delete invoking expire_in)
        | None => Ret tt
        end ;;;
        Ret (Some msg)
    | Err (Builtin Forbidden) =>
        when (negb quiet)
             (perform (E_print ("Warning: Cannot send message to " +:+
                                channel_name dest +:+ ", no permission"))) ;;;
        Ret None
    | Err (Builtin NotFound) =>
        when (negb quiet)
             (perform (E_print ("Warning: Cannot send message to " +:+
                                channel_name dest +:+ ", invalid channel?"))) ;;;
        Ret None
    | Err e => Throw e
    end).

(** The state of parameter binding: the copy [params] of the signature,
    the dictionary [handler_kwargs], the token list [args] and the list
    [args_expected]. *)
Record Binding : Type := mkBinding {
  params : list Param;
  handler_kwargs : gmap string value;
  args : list string;
  args_expected : list string
}.

Definition declares (key : string) (ps : list Param) : bool :=
  bool_decide (key ∈ param_name <$> ps).

(** [params.pop(key)] *)
Definition pop (key : string) (ps : list Param) : list Param :=
  filter (fun p => param_name p ≠ key) ps.

Definition set_kwarg (key : string) (v : value) (st : Binding) : Binding :=
  mkBinding (pop key (params st)) (<[key := v]> (handler_kwargs st))
            (args st) (args_expected st).

(** [if params.pop(key, None): handler_kwargs[key] = v] *)
Definition bind_known (key : string) (v : value) (st : Binding) : Binding :=
  if declares key (params st) then set_kwarg key v st else st.

(** on_message, the nine recognised parameter names. *)
Definition bind_context (message : Message) (user_permissions : PermissionGroup)
    (st : Binding) : Prog Binding :=
  let st := bind_known "message" (VMessage message) st in
  let st := bind_known "channel" (VChannel (channel message)) st in
  let st := bind_known "author" (VUser (author message)) st in
  let st := bind_known "server" (VServer (server message)) st in
  st <- (if declares "player" (params st)
         then p <- call (E_get_player (channel message)) (fun x => x) ;;
              Ret (set_kwarg "player" (VPlayer p) st)
         else Ret st) ;;
  let st := bind_known "permissions" (VPermissions user_permissions) st in
  st <- (if declares "user_mentions" (params st)
         then match server message with
              | Some s => Ret (set_kwarg "user_mentions"
                                 (VMembers s (raw_mentions message)) st)
              | None => Throw (Builtin AttributeError)
              end
         else Ret st) ;;
  st <- (if declares "channel_mentions" (params st)
         then match server message with
              | Some s => Ret (set_kwarg "channel_mentions"
                                 (VChannels s (raw_channel_mentions message)) st)
              | None => Throw (Builtin AttributeError)
              end
         else Ret st) ;;
  Ret (bind_known "leftover_args" VArgs st).

(** ['[%s=%s]' % (key, param.default)] or [key] *)
Definition doc_key (p : Param) : string :=
  match param_default p with
  | Some d => "[" +:+ param_name p +:+ "=" +:+ d +:+ "]"
  | None => param_name p
  end.

(** on_message, the loop over [list(params.items())]. *)
Fixpoint bind_positional (items : list Param) (st : Binding) : Binding :=
  match items with
  | [] => st
  | param :: rest =>
      let key := param_name param in
      let expected := args_expected st ++ [doc_key param] in
      match args st, param_default param with
      | [], Some _ =>
          bind_positional rest
            (mkBinding (pop key (params st)) (handler_kwargs st) [] expected)
      | [], None =>
          bind_positional rest
            (mkBinding (params st) (handler_kwargs st) [] expected)
      | arg_value :: remaining, _ =>
          bind_positional rest
            (mkBinding (pop key (params st))
                       (<[key := VStr arg_value]> (handler_kwargs st))
                       remaining expected)
      end
  end.

Definition whitelist_message (g : PermissionGroup) : string :=
  "This command is not enabled for your group (" +:+ group_name g +:+ ").".

Definition blacklist_message (g : PermissionGroup) : string :=
  "This command is disabled for your group (" +:+ group_name g +:+ ").".

(** on_message, the permission gate. *)
Definition check_permissions (cfg : Config) (message : Message)
    (user_permissions : PermissionGroup) (command : string) : Prog unit :=
  if bool_decide (user_id (author message) ≠ owner_id cfg) then
    if bool_decide (command_whitelist user_permissions ≠ ∅)
       && bool_decide (command ∉ command_whitelist user_permissions)
    then Throw (Failure PermissionsError (whitelist_message user_permissions) 20)
    else if bool_decide (command_blacklist user_permissions ≠ ∅)
            && bool_decide (command ∈ command_blacklist user_permissions)
    then Throw (Failure PermissionsError (blacklist_message user_permissions) 20)
    else Ret tt
  else Ret tt.

Definition code_block (text : string) : string :=
  "```" +:+ nl +:+ text +:+ nl +:+ "```".

(** The text that the router formats when a parameter is left. *)
Definition usage_docs (cfg : Config) (command : string) (handler : Handler)
    (st : Binding) : string :=
  let generated :=
    "Usage: " +:+ command_prefix cfg +:+ command +:+ " " +:+
    Text.join " " (args_expected st) in
  let docs :=
    match handler_doc handler with
    | Some EmptyString | None => generated
    | Some d => d
    end in
  Text.join nl (Text.strip <$> Text.split_on "010" docs).

Definition send_usage (cfg : Config) (message : Message) (command : string)
    (handler : Handler) (st : Binding) : Prog unit :=
  text <- lift (str_format (usage_docs cfg command handler st) (command_prefix cfg)) ;;
  safe_send_message (channel message) (code_block text) (Some 60) None false ;;;
  Ret tt.

(** What the handler finds behind its keyword arguments when it runs. *)
Definition deref (store : list string) (kwargs : gmap string value)
  : gmap string value :=
  (fun v => match v with VArgs => VList store | _ => v end) <$> kwargs.

(** The text of a reply, with the mention of the author when the reply
    asks for it. *)
Definition response_text (message : Message) (r : Response) : string :=
  if reply r
  then user_mention (author message) +:+ ", " +:+ response_content r
  else response_content r.

(** on_message, what follows the call of the handler. *)
Definition send_response (cfg : Config) (message : Message)
    (response : option Response) : Prog unit :=
  match response with
  | Some r =>
      safe_send_message (channel message) (response_text message r)
        (Some (if delete_messages cfg then delete_after r else 0))
        (if delete_invoking cfg then Some message else None) false ;;;
      Ret tt
  | None => Ret tt
  end.

(** on_message, the body of the try statement. *)
Definition dispatch_body (cfg : Config) (message : Message)
    (user_permissions : PermissionGroup) (command : string)
    (handler : Handler) (tokens : list string) : Prog unit :=
  st <- bind_context message user_permissions
          (mkBinding (handler_params handler) ∅ tokens []) ;;
  let st := bind_positional (params st) st in
  check_permissions cfg message user_permissions command ;;;
  match params st with
  | _ :: _ => send_usage cfg message command handler st
  | [] =>
      response <- call (E_handler command (deref (args st) (handler_kwargs st)))
                       (fun x => x) ;;
      send_response cfg message response
  end.

(** on_message, the except clauses. *)
Definition dispatch_except (cfg : Config) (message : Message) (e : exn)
  : Prog unit :=
  match e with
  | Failure cls text expire =>
      perform (E_print (class_repr cls +:+ ": " +:+ text)) ;;;
      safe_send_message (channel message) (code_block text)
        (if delete_messages cfg then Some expire else None)
        (if delete_invoking cfg then Some message else None) false ;;;
      Ret tt
  | Signal cls => Throw (Signal cls)
  | Builtin cls =>
      perform (E_print_exc e) ;;;
      if debug_mode cfg
      then tb <- perform (E_format_exc e) ;;
           safe_send_message (channel message) (code_block tb) (Some 0) None false ;;;
           Ret tt
      else Ret tt
  end.

Definition dispatch (cfg : Config) (message : Message)
    (user_permissions : PermissionGroup) (command : string)
    (handler : Handler) (tokens : list string) : Prog unit :=
  try_except (dispatch_body cfg message user_permissions command handler tokens)
             (dispatch_except cfg message).

Fixpoint assoc (name : string) (table : list (string * Handler)) : option Handler :=
  match table with
  | [] => None
  | (k, h) :: rest => if decide (k = name) then Some h else assoc name rest
  end.

(** [getattr(self, name, None)] *)
Definition getattr (self : MusicBot) (name : string) : option Handler :=
  assoc name (attributes self).

Definition bot_mention : string := "<@193778484869332993>".

(** on_message, the branch of a text without the command prefix. *)
Definition cleverbot_path (message : Message) (message_content : string)
  : Prog unit :=
  if Text.contains bot_mention message_content then
    let string_sent := Text.strip (Text.replace bot_mention EmptyString message_content) in
    answer <- call (E_cleverbot_ask string_sent) (fun x => x) ;;
    safe_send_message (channel message)
      (user_mention (author message) +:+ " " +:+ answer) (Some 0) None false ;;;
    Ret tt
  else Ret tt.

(** MusicBot.on_message *)
Definition on_message (self : MusicBot) (message : Message) : Prog unit :=
  let cfg := config self in
  if user_bot (author message) then Ret tt else
  let message_content := Text.strip (content message) in
  if negb (Text.startswith message_content (command_prefix cfg))
  then cleverbot_path message message_content
  else
  if user_eqb (author message) (user self)
  then perform (E_print ("Ignoring command from myself (" +:+ content message +:+ ")"))
  else
  if bool_decide (bound_channels cfg ≠ ∅)
     && bool_decide (channel_id (channel message) ∉ bound_channels cfg)
     && negb (is_private (channel message))
  then Ret tt
  else
  match Text.split message_content with
  | [] => Throw (Builtin ValueError)
  | first :: tokens =>
      let command :=
        Text.strip (Text.lower (Text.drop (String.length (command_prefix cfg)) first)) in
      match getattr self ("cmd_" +:+ command) with
      | None => Ret tt
      | Some handler =>
          if is_private (channel message)
             && negb (bool_decide (user_id (author message) = owner_id cfg)
                      && bool_decide (command = "joinserver"))
          then
            call (E_send_message (channel message)
                    "You cannot use this bot in private messages.") (fun x => x) ;;;
            Ret tt
          else
            perform (E_print ("[Command] " +:+ user_id (author message) +:+ "/" +:+
                              user_name (author message) +:+
                              " (" +:+ message_content +:+ ")")) ;;;
            dispatch cfg message (permissions self (author message))
                     command handler tokens
      end
  end.

End Router.

(** ** Command handlers *)

Section Handlers.
Context {L : Library}.

Definition rolled (n : Z) : string := "I rolled a **" +:+ Text.str_of_int n +:+ "**".

Definition roll_fallback_notice : string :=
  "I don't know what you wanted to roll. I rolled a 6-sided die instead" +:+ nl.

Definition roll_limit_notice : string :=
  "Too many sides. I rolled a 1000-sided die instead" +:+ nl.

(** The text that a handler reads after its own keyword. *)
Definition argument_text (cfg : Config) (keyword : string) (message : Message) : string :=
  Text.strip (Text.replace (command_prefix cfg +:+ keyword) EmptyString (content message)).

(** MusicBot.cmd_roll *)
Definition cmd_roll (cfg : Config) (message : Message) : Prog (option Response) :=
  let sides := argument_text cfg "roll" message in
  match Text.int sides with
  | Some sides =>
      if sides <? 1 then
        n <- perform (E_randint 1 6) ;;
        Ret (Some (mkResponse (roll_fallback_notice +:+ rolled n) false 20))
      else if 1000 <? sides then
        n <- perform (E_randint 1 1000) ;;
        Ret (Some (mkResponse (roll_limit_notice +:+ rolled n) false 20))
      else
        n <- perform (E_randint 1 sides) ;;
        Ret (Some (mkResponse (rolled n) false 20))
  | None =>
      n <- perform (E_randint 1 6) ;;
      Ret (Some (mkResponse (roll_fallback_notice +:+ rolled n) false 20))
  end.

(** [int(query)] inside a condition: a malformed literal raises. *)
Definition int_of (query : string) : Prog Z :=
  match Text.int query with
  | Some n => Ret n
  | None => Throw (Builtin ValueError)
  end.

Definition xkcd_url (number : string) : string :=
  "https://xkcd.com/" +:+ number +:+ "/".

Definition xkcd_fetch (url : string) : Prog (option Response) :=
  body <- call (E_http_get url) (fun x => x) ;;
  alt <- lift (img_attr body 1 "alt") ;;
  src <- lift (img_attr body 1 "src") ;;
  title <- lift (img_attr body 1 "title") ;;
  Ret (Some (mkResponse (":mag:**" +:+ alt +:+ "**" +:+ nl +:+ "http:" +:+ src +:+
                         nl +:+ title) false 20)).

(** MusicBot.cmd_xkcd.  The conditions of the if statement are evaluated
    in the order of the source; the last branch of the chain has no else,
    after it [url] is unbound. *)
Definition cmd_xkcd (cfg : Config) (message : Message) : Prog (option Response) :=
  let query := argument_text cfg "xkcd" message in
  if (String.length query =? 0)%nat then
    i <- perform (E_randint 1 1662) ;;
    xkcd_fetch (xkcd_url (Text.str_of_int i))
  else
    in_range <- (if Text.isdigit query
                 then n <- int_of query ;;
                      if 1 <=? n then m <- int_of query ;; Ret (m <=? 1662)
                      else Ret false
                 else Ret false) ;;
    if in_range : bool then xkcd_fetch (xkcd_url query)
    else
      out_of_range <- (n <- int_of query ;;
                       if n <=? 0 then Ret true
                       else m <- int_of query ;; Ret (1663 <=? m)) ;;
      if out_of_range : bool then
        Ret (Some (mkResponse "It has to be between 1 and 1662!" false 20))
      else if negb (Text.isdigit query) then
        Ret (Some (mkResponse "You have to put a number!" false 20))
      else Throw (Builtin UnboundLocalError).

Definition only (cls : builtin_class) {A : Type} (h : Prog A) (e : exn) : Prog A :=
  match e with
  | Builtin c => if decide (c = cls) then h else Throw e
  | _ => Throw e
  end.

Definition send_plain (dest : Channel) (text : string) : Prog unit :=
  safe_send_message dest text (Some 0) None false ;;; Ret tt.

(** [float(n)] on an integer: OverflowError when [n] rounds beyond the
    largest double, that is when its absolute value reaches
    2^1024 - 2^970.  The pause that [asyncio.sleep] is asked for is named
    by the integer that was converted. *)
Definition float_of (n : Z) : Prog Z :=
  if Z.abs n <? 2 ^ 1024 - 2 ^ 970 then Ret n else Throw (Builtin OverflowError).

(** MusicBot.cmd_timer *)
Definition cmd_timer (cfg : Config) (message : Message) : Prog (option Response) :=
  let query := argument_text cfg "timer" message in
  let query_split := Text.split_once " " query in
  let who := user_mention (author message) in
  try_except
    (seconds <- int_of (default EmptyString (head query_split)) ;;
     perform (E_print (Text.str_of_int seconds)) ;;;
     try_except
       (match query_split !! 1%nat with
        | Some remember =>
            perform (E_print remember) ;;;
            send_plain (channel message)
              (who +:+ ", I will remind you about `" +:+ remember +:+ "` in " +:+
               Text.str_of_int seconds +:+ " seconds!") ;;;
            delay <- float_of seconds ;;
            perform (E_sleep delay) ;;;
            send_plain (channel message)
              (who +:+ ", your timer for " +:+ Text.str_of_int seconds +:+
               " seconds has expired! I was instructed to remind you about `" +:+
               remember +:+ "`!")
        | None => Throw (Builtin IndexError)
        end)
       (only IndexError
          (send_plain (channel message)
             (who +:+ ", you have set a timer for " +:+ Text.str_of_int seconds +:+
              " seconds!") ;;;
           delay <- float_of seconds ;;
           perform (E_sleep delay) ;;;
           send_plain (channel message)
             (who +:+ ", your timer for " +:+ Text.str_of_int seconds +:+
              " seconds has expired!"))) ;;;
     Ret None)
    (only ValueError
       (Ret (Some (mkResponse
                     ("That's not what I expected. The format is `" +:+
                      command_prefix cfg +:+
                      "timer [seconds] [optional reminder message].`") false 20)))).

(** cmd_help, the list [commands]. *)
Definition help_commands (self : MusicBot) : list string :=
  (fun att => command_prefix (config self) +:+ Text.lower (Text.replace "cmd_" EmptyString att))
    <$> filter (fun att => Text.startswith att "cmd_" = true ∧ att ≠ "cmd_help")
               (fst <$> attributes self).

Definition help_message (self : MusicBot) : string :=
  "my commands are" +:+ nl +:+ "```" +:+ Text.join ", " (help_commands self) +:+
  nl +:+ nl +:+ "@me to talk to me!```".

(** MusicBot.cmd_help.  The template of [format] has one positional field,
    which receives the dedented docstring; [dedent] raises on a missing
    docstring. *)
Definition cmd_help (self : MusicBot) (command : option string)
  : Prog (option Response) :=
  match command with
  | Some (String c rest) =>
      match getattr self ("cmd_" +:+ String c rest) with
      | Some cmd =>
          match handler_doc cmd with
          | Some d =>
              Ret (Some (mkResponse ("```" +:+ nl +:+ dedent d +:+ "```") false 60))
          | None => Throw (Builtin TypeError)
          end
      | None => Ret (Some (mkResponse "No such command" false 10))
      end
  | _ => Ret (Some (mkResponse (help_message self) true 60))
  end.

End Handlers.

(** ** The commands of the class *)

Definition doc (lines : list string) : option string := Some (Text.join Text.newline lines).

(** cmd_8ball *)
Definition sig__8ball : Handler :=
  mkHandler []
    (doc [EmptyString;
          "        Usage:";
          "            {command_prefix}8ball";
          EmptyString;
          "        Ask Ainnie a yes or no question";
          "        "]).

(** cmd_cat *)
Definition sig_cat : Handler :=
  mkHandler []
    (doc [EmptyString;
          "        Usage:";
          "            {command_prefix}cat";
          EmptyString;
          "        Makes Ainnie-Bot send a cat pictures";
          "        "]).

(** cmd_choice *)
Definition sig_choice : Handler :=
  mkHandler [mkParam "message" None]
    (doc [EmptyString;
          "        Usage:";
          "            {command_prefix}choice choice1;choice2;choice3";
          EmptyString;
          "        Makes Ainnie-Bot choose one of the choices";
          "        "]).

(** cmd_clean *)
Definition sig_clean : Handler :=
  mkHandler [mkParam "message" None; mkParam "channel" None; mkParam "server" None; mkParam "author" None; mkParam "search_range" (Some "50")]
    (doc [EmptyString;
          "        Usage:";
          "            {command_prefix}clean [range]";
          EmptyString;
          "        Removes up to [range] messages the bot has posted in chat. Default: 50, Max: 1000";
          "        "]).

(** cmd_coinflip *)
Definition sig_coinflip : Handler :=
  mkHandler [mkParam "message" None]
    (doc [EmptyString;
          "        Usage:";
          "            {command_prefix}coinflip";
          EmptyString;
          "        Makes Ainnie-Bot flip a coin";
          "        "]).

(** cmd_dot *)
Definition sig_dot : Handler :=
  mkHandler []
    (doc [EmptyString;
          "        Usage:";
          "            {command_prefix}dot";
          EmptyString;
          "        Makes Ainnie-Bot send a dot";
          "        "]).

(** cmd_game *)
Definition sig_game : Handler :=
  mkHandler [mkParam "message" None]
    (doc [EmptyString;
          "        Usage:";
          "            {command_prefix}game (message)";
          EmptyString;
          "        Makes Ainnie-Bot play a game";
          "        Ainnie-bot removes her game if there is no message specified";
          "        "]).

(** cmd_help *)
Definition sig_help : Handler :=
  mkHandler [mkParam "command" (Some "None")]
    (doc [EmptyString;
          "        Usage:";
          "            {command_prefix}help [command]";
          EmptyString;
          "        Prints a help message.";
          "        If a command is specified, it prints a help message for that command.";
          "        Otherwise, it lists the available commands.";
          "        "]).

(** cmd_honk *)
Definition sig_honk : Handler :=
  mkHandler []
    (doc [EmptyString;
          "        Usage:";
          "            {command_prefix}honk";
          EmptyString;
          "        Makes Ainnie-Bot send a honk command";
          "        "]).

(** cmd_kiyu *)
Definition sig_kiyu : Handler :=
  mkHandler []
    (doc [EmptyString;
          "        Usage:";
          "            {command_prefix}kiyu";
          EmptyString;
          "        Kiyu pictures!";
          "        "]).

(** cmd_listids *)
Definition sig_listids : Handler :=
  mkHandler [mkParam "server" None; mkParam "author" None; mkParam "leftover_args" None; mkParam "cat" (Some "all")]
    (doc [EmptyString;
          "        Usage:";
          "            {command_prefix}listids [categories]";
          "            ";
          "        Lists the ids for various things.  Categories are:";
          "        all, users, roles, channels";
          "        "]).

(** cmd_penguin *)
Definition sig_penguin : Handler :=
  mkHandler []
    (doc [EmptyString;
          "        Usage:";
          "            {command_prefix}penguin";
          EmptyString;
          "        Sends Penguins";
          "        "]).

(** cmd_perms *)
Definition sig_perms : Handler :=
  mkHandler [mkParam "author" None; mkParam "channel" None; mkParam "server" None; mkParam "permissions" None]
    (doc [EmptyString;
          "        Usage:";
          "            {command_prefix}perms";
          EmptyString;
          "        Sends the user a list of their permissions.";
          "        "]).

(** cmd_restart *)
Definition sig_restart : Handler :=
  mkHandler [mkParam "channel" None]
    None.

(** cmd_roll *)
Definition sig_roll : Handler :=
  mkHandler [mkParam "message" None]
    (doc [EmptyString;
          "        Usage:";
          "            {command_prefix}roll #";
          EmptyString;
          "        Makes Ainnie-Bot roll a #-sided die (defaults to 6 if no number given)";
          "        "]).

(** cmd_say *)
Definition sig_say : Handler :=
  mkHandler [mkParam "message" None]
    (doc [EmptyString;
          "        Usage:";
          "            {command_prefix}say (message)";
          EmptyString;
          "        Makes Ainnie-Bot say something";
          "        "]).

(** cmd_setavatar *)
Definition sig_setavatar : Handler :=
  mkHandler [mkParam "message" None; mkParam "url" (Some "None")]
    (doc [EmptyString;
          "        Usage:";
          "            {command_prefix}setavatar [url]";
          "            ";
          "        Changes the bot's avatar.";
          "        Attaching a file and leaving the url parameter blank also works.";
          "        "]).

(** cmd_setname *)
Definition sig_setname : Handler :=
  mkHandler [mkParam "leftover_args" None; mkParam "name" None]
    (doc [EmptyString;
          "        Usage:";
          "            {command_prefix}setname name";
          "            ";
          "        Changes the bot's username.";
          "        Note: This operation is limited by discord to twice per hour.";
          "        "]).

(** cmd_setnick *)
Definition sig_setnick : Handler :=
  mkHandler [mkParam "server" None; mkParam "channel" None; mkParam "leftover_args" None; mkParam "nick" None]
    (doc [EmptyString;
          "        Usage:";
          "            {command_prefix}setnick nick";
          "            ";
          "        Changes the bot's nickname.";
          "        "]).

(** cmd_shutdown *)
Definition sig_shutdown : Handler :=
  mkHandler [mkParam "channel" None]
    None.

(** cmd_timer *)
Definition sig_timer : Handler :=
  mkHandler [mkParam "message" None]
    (doc [EmptyString;
          "        Usage:";
          "            {command_prefix}timer [seconds] [reminder]";
          EmptyString;
          "        Sets a timer for a user with the option of setting a reminder text.";
          "        "]).

(** cmd_tsun *)
Definition sig_tsun : Handler :=
  mkHandler []
    (doc [EmptyString;
          "        Usage:";
          "            {command_prefix}tsun";
          EmptyString;
          "        Makes Ainnie-Bot be tsundere";
          "        "]).

(** cmd_urban *)
Definition sig_urban : Handler :=
  mkHandler [mkParam "message" None]
    (doc [EmptyString;
          "        Usage:";
          "            {command_prefix}urban (phrase)";
          EmptyString;
          "        Finds a phrase in urban dictionary";
          "        "]).

(** cmd_xkcd *)
Definition sig_xkcd : Handler :=
  mkHandler [mkParam "message" None]
    (doc [EmptyString;
          "        Usage:";
          "            {command_prefix}xkcd";
          EmptyString;
          "        Queries a random XKCD comic.";
          "        Do {command_prefix}xkcd <number from 1-1662> to pick a specific comic.";
          "        "]).

(** The [cmd_] attributes of the class, as [dir] lists them. *)
Definition cmd_attributes : list (string * Handler) :=
  [("cmd_8ball", sig__8ball);
   ("cmd_cat", sig_cat);
   ("cmd_choice", sig_choice);
   ("cmd_clean", sig_clean);
   ("cmd_coinflip", sig_coinflip);
   ("cmd_dot", sig_dot);
   ("cmd_game", sig_game);
   ("cmd_help", sig_help);
   ("cmd_honk", sig_honk);
   ("cmd_kiyu", sig_kiyu);
   ("cmd_listids", sig_listids);
   ("cmd_penguin", sig_penguin);
   ("cmd_perms", sig_perms);
   ("cmd_restart", sig_restart);
   ("cmd_roll", sig_roll);
   ("cmd_say", sig_say);
   ("cmd_setavatar", sig_setavatar);
   ("cmd_setname", sig_setname);
   ("cmd_setnick", sig_setnick);
   ("cmd_shutdown", sig_shutdown);
   ("cmd_timer", sig_timer);
   ("cmd_tsun", sig_tsun);
   ("cmd_urban", sig_urban);
   ("cmd_xkcd", sig_xkcd)].

(** ** Observations on a run *)

(** The handler calls of a run, with the keyword arguments as the handler
    finds them. *)
Definition invocations (tr : list Event) : list (string * gmap string value) :=
  omap (fun ev => match ev with
                  | Ev (E_handler command kwargs) _ => Some (command, kwargs)
                  | _ => None
                  end) tr.

(** What the invoked handlers returned. *)
Definition returned (tr : list Event) : list (option Response) :=
  omap (fun ev => match ev with
                  | Ev (E_handler _ _) (Ok response) => Some response
                  | _ => None
                  end) tr.

(** The texts handed to [send_message], with their destination. *)
Definition sent_texts (tr : list Event) : list (Channel * string) :=
  omap (fun ev => match ev with
                  | Ev (E_send_message dest text) _ => Some (dest, text)
                  | _ => None
                  end) tr.

(** The messages that the platform created for them. *)
Definition sent_messages (tr : list Event) : list Message :=
  omap (fun ev => match ev with
                  | Ev (E_send_message _ _) (Ok msg) => Some msg
                  | _ => None
                  end) tr.

(** The delays of the deletions scheduled for message [m]. *)
Definition scheduled (m : Message) (tr : list Event) : list (option Z) :=
  omap (fun ev => match ev with
                  | Ev (E_ensure_future_delete m' after) _ =>
                      if decide (m' = m) then Some after else None
                  | _ => None
                  end) tr.

(** A stretch of a run without handler call, send or scheduled deletion. *)
Definition quiet (tr : list Event) : Prop :=
  invocations tr = [] ∧ returned tr = [] ∧ sent_texts tr = [] ∧
  sent_messages tr = [] ∧ forall m, scheduled m tr = [].

(** A program that never calls a handler, whatever the environment
    answers. *)
Fixpoint handler_free {A : Type} (p : Prog A) : Prop :=
  match p with
  | Ret _ | Throw _ => True
  | Do eff k =>
      match eff with E_handler _ _ => False | _ => True end ∧
      forall x, handler_free (k x)
  end.

(** [random.randint(a, b)] gives a value between its bounds. *)
Definition fair (w : Oracle) : Prop :=
  forall n a b, a <= b -> a <= w n (E_randint a b) <= b.

(** The parameters that the router fills from the tokens: those whose name
    is none of the nine recognised ones. *)
Definition recognised : list string :=
  ["message"; "channel"; "author"; "server"; "player"; "permissions";
   "user_mentions"; "channel_mentions"; "leftover_args"].

Definition positional (handler : Handler) : list Param :=
  filter (fun p => param_name p ∉ recognised) (handler_params handler).

(** The permission gate lets the command pass. *)
Definition permitted (cfg : Config) (message : Message) (g : PermissionGroup)
    (command : string) : Prop :=
  user_id (author message) = owner_id cfg ∨
  ((command_whitelist g = ∅ ∨ command ∈ command_whitelist g) ∧
   (command_blacklist g = ∅ ∨ command ∉ command_blacklist g)).

(** The command, handler and tokens with which [on_message] enters its try
    statement; [None] when it returns before. *)
Definition resolve (self : MusicBot) (message : Message)
  : option (string * Handler * list string) :=
  let cfg := config self in
  let message_content := Text.strip (content message) in
  if user_bot (author message) then None
  else if negb (Text.startswith message_content (command_prefix cfg)) then None
  else if user_eqb (author message) (user self) then None
  else if bool_decide (bound_channels cfg ≠ ∅)
          && bool_decide (channel_id (channel message) ∉ bound_channels cfg)
          && negb (is_private (channel message)) then None
  else match Text.split message_content with
       | [] => None
       | first :: tokens =>
           let command :=
             Text.strip (Text.lower (Text.drop (String.length (command_prefix cfg)) first)) in
           match getattr self ("cmd_" +:+ command) with
           | None => None
           | Some handler =>
               if is_private (channel message)
                  && negb (bool_decide (user_id (author message) = owner_id cfg)
                           && bool_decide (command = "joinserver"))
               then None
               else Some (command, handler, tokens)
           end
       end.

(** The exits of [on_message] before it looks at the command, in the
    order in which the conditions are tested: the author is a bot account,
    the text does not start with the command prefix, the author is the bot
    itself, the channel is outside a configured binding and not private. *)
Inductive Exit : Type := BotAuthor | NoPrefix | OwnMessage | UnboundChannel.

Definition precondition_exit (self : MusicBot) (message : Message) : option Exit :=
  let cfg := config self in
  if user_bot (author message) then Some BotAuthor
  else if negb (Text.startswith (Text.strip (content message)) (command_prefix cfg))
  then Some NoPrefix
  else if user_eqb (author message) (user self) then Some OwnMessage
  else if bool_decide (bound_channels cfg ≠ ∅)
          && bool_decide (channel_id (channel message) ∉ bound_channels cfg)
          && negb (is_private (channel message))
  then Some UnboundChannel
  else None.

(** ** A library instance, an environment and inputs to run the programs *)

Module Demo.

Definition map_result {A B : Type} (f : A -> B) (r : result A) : result B :=
  match r with
  | Ok a => Ok (f a)
  | Err e => Err e
  end.

(** [format] on templates whose only replacement field is the bare
    [{command_prefix}]; doubled braces stand for themselves.  Templates
    with other fields are not meant to be run with this instance. *)
Fixpoint format_go (v : string) (skip : nat) (s : string) : result string :=
  match s with
  | EmptyString => Ok EmptyString
  | String c s' =>
      match skip with
      | S k => format_go v k s'
      | O =>
          if String.prefix "{{" s then map_result (String "{") (format_go v 1 s')
          else if String.prefix "}}" s then map_result (String "}") (format_go v 1 s')
          else if String.prefix "{command_prefix}" s
               then map_result (String.append v) (format_go v 15 s')
          else if decide (c = "{"%char) then Err (Builtin KeyError)
          else if decide (c = "}"%char) then Err (Builtin ValueError)
          else map_result (String c) (format_go v O s')
      end
  end.

Definition is_blank (c : ascii) : bool :=
  bool_decide (c = " "%char) || bool_decide (c = "009"%char).

Fixpoint blank_only (s : string) : bool :=
  match s with
  | EmptyString => true
  | String c s' => is_blank c && blank_only s'
  end.

Fixpoint indent_of (s : string) : string :=
  match s with
  | String c s' => if is_blank c then String c (indent_of s') else EmptyString
  | EmptyString => EmptyString
  end.

Fixpoint common_prefix (a b : string) : string :=
  match a, b with
  | String x a', String y b' =>
      if decide (x = y) then String x (common_prefix a' b') else EmptyString
  | _, _ => EmptyString
  end.

(** [dedent]: lines of blanks are emptied, the longest common indentation
    of the other lines is removed. *)
Definition dedent_text (text : string) : string :=
  let lines := (fun l => if blank_only l then EmptyString else l)
                 <$> Text.split_on "010" text in
  let indents := indent_of <$> filter (fun l => l ≠ EmptyString) lines in
  let margin := match indents with
                | [] => EmptyString
                | i :: rest => foldl common_prefix i rest
                end in
  Text.join Text.newline
    ((fun l => if String.prefix margin l then Text.drop (String.length margin) l else l)
       <$> lines).

#[export] Instance library : Library := {|
  dedent := dedent_text;
  str_format := fun template v => format_go v O template;
  img_attr := fun _ _ _ => Err (Builtin IndexError)
|}.

Definition bot_user : User := mkUser "193778484869332993" "Ainnie" "<@193778484869332993>" true.
Definition owner : User := mkUser "1000" "owner" "<@1000>" false.
Definition guest : User := mkUser "2000" "guest" "<@2000>" false.

Definition lobby : Channel := mkChannel "10" "lobby" false.
Definition direct : Channel := mkChannel "77" "guest" true.
Definition home : Server := mkServer "home".

Definition everyone : PermissionGroup := mkGroup "Default" ∅ ∅.
Definition helpers : PermissionGroup := mkGroup "Helpers" {["help"; "roll"]} ∅.

Definition settings (messages invoking : bool) : Config :=
  mkConfig "!" (user_id owner) ∅ messages invoking false.

Definition ainnie (cfg : Config) (groups : User -> PermissionGroup) : MusicBot :=
  mkBot cfg bot_user groups cmd_attributes.

Definition says (who : User) (where_ : Channel) (text : string) : Message :=
  mkMessage "500" who text where_
            (if is_private where_ then None else Some home) [] [].

Definition posted (n : nat) (dest : Channel) (text : string) : Message :=
  mkMessage ("reply-" +:+ pretty n) bot_user text dest
            (if is_private dest then None else Some home) [] [].

(** An environment in which the platform delivers every message, the die
    shows its lowest face and the invoked handler returns [response]. *)
Definition platform (response : option Response) : Oracle :=
  fun n eff =>
    match eff as e return answer e with
    | E_send_message dest text => Ok (posted n dest text)
    | E_ensure_future_delete _ _ => tt
    | E_print _ => tt
    | E_print_exc _ => tt
    | E_format_exc _ => "Traceback (most recent call last):"
    | E_get_player _ => Err (Builtin AttributeError)
    | E_handler _ _ => Ok response
    | E_cleverbot_ask _ => Ok "Hello."
    | E_randint a _ => a
    | E_sleep _ => tt
    | E_http_get _ => Err (Builtin HTTPException)
    end.

(** The modelled handlers behind their keyword. *)
Definition run_handler (self : MusicBot) (command : string)
    (kwargs : gmap string value) : Prog (option Response) :=
  let with_message (body : Message -> Prog (option Response)) :=
    match kwargs !! "message" with
    | Some (VMessage m) => body m
    | _ => Throw (Builtin TypeError)
    end in
  if decide (command = "roll") then with_message (cmd_roll (config self))
  else if decide (command = "xkcd") then with_message (cmd_xkcd (config self))
  else if decide (command = "timer") then with_message (cmd_timer (config self))
  else if decide (command = "help") then
    cmd_help self (match kwargs !! "command" with
                   | Some (VStr s) => Some s
                   | _ => None
                   end)
  else Ret None.

(** The same environment, in which the router's call of a handler is
    answered by running the handler. *)
Definition linked (self : MusicBot) : Oracle :=
  fun n eff =>
    match eff as e return answer e with
    | E_handler command kwargs =>
        snd (exec (platform None) O (run_handler self command kwargs))
    | e => platform None n e
    end.

(** The guest belongs to [group], everybody else to the default group. *)
Definition grouping (group : PermissionGroup) (u : User) : PermissionGroup :=
  if decide (user_id u = user_id guest) then group else everyone.

Definition bot (group : PermissionGroup) : MusicBot :=
  ainnie (settings true true) (grouping group).

Definition setname_usage : string :=
  Text.join Text.newline
    [EmptyString; "Usage:"; "!setname name"; EmptyString; "Changes the bot's username.";
     "Note: This operation is limited by discord to twice per hour."; EmptyString].

Definition renaming : Message := says owner lobby "!setname Ainnie the bot".

(** A bot bound to the channel 11, and a bot that runs on a user
    account. *)
Definition bound_bot : MusicBot :=
  mkBot (mkConfig "!" (user_id owner) {["11"]} true true false) bot_user
        (fun _ => everyone) cmd_attributes.

Definition self_user : User :=
  mkUser "193778484869332993" "Ainnie" "<@193778484869332993>" false.

Definition self_bot : MusicBot :=
  mkBot (settings true true) self_user (fun _ => everyone) cmd_attributes.

(** A bot that leaves its replies in place and deletes the messages that
    invoke it. *)
Definition quiet_bot : MusicBot := ainnie (settings false true) (fun _ => everyone).

Definition rolling : Message := says guest lobby "!roll 20".
Definition rolled_one : Response := mkResponse "I rolled a **1**" false 20.

End Demo.

(** ** Other parts of the file *)

(** class SkipState: the voters and the messages of their votes, told
    apart by their identifiers. *)
Record SkipState : Type := mkSkipState {
  skippers : gset string;
  skip_msgs : gset string
}.

(** SkipState.__init__ *)
Definition new_skip_state : SkipState := mkSkipState ∅ ∅.

(** SkipState.skip_count *)
Definition skip_count (s : SkipState) : nat := size (skippers s).

(** SkipState.reset *)
Definition reset (s : SkipState) : SkipState := mkSkipState ∅ ∅.

(** SkipState.add_skipper: the new state and the count it returns. *)
Definition add_skipper (s : SkipState) (skipper msg : string) : SkipState * nat :=
  let s' := mkSkipState ({[skipper]} ∪ skippers s) ({[msg]} ∪ skip_msgs s) in
  (s', skip_count s').

(** The votes of a list of (voter, message) pairs, one after the other. *)
Definition add_skippers (s : SkipState) (votes : list (string * string)) : SkipState :=
  foldl (fun st vote => fst (add_skipper st vote.1 vote.2)) s votes.

(** MusicBot.owner_only: [orig_msg] is the variable [message] that the
    wrapper finds in the frames of its callers, [func] the wrapped call. *)
Definition owner_only {A : Type} (cfg : Config) (orig_msg : option Message)
    (func : Prog A) : Prog A :=
  match orig_msg with
  | Some m =>
      if bool_decide (user_id (author m) = owner_id cfg) then func
      else Throw (Failure PermissionsError "Only the owner can use this command" 30)
  | None => func
  end.

(** MusicBot.cmd_restart *)
Definition cmd_restart (dest : Channel) : Prog (option Response) :=
  safe_send_message dest ":wave:" (Some 0) None false ;;;
  Throw (Signal RestartSignal).

(** MusicBot.cmd_shutdown *)
Definition cmd_shutdown (dest : Channel) : Prog (option Response) :=
  safe_send_message dest ":wave:" (Some 0) None false ;;;
  Throw (Signal TerminateSignal).

(** [random.choice(seq)]: the element at a position drawn below
    [len(seq)], the draw that [randint(0, len(seq) - 1)] makes; IndexError
    on an empty sequence. *)
Definition random_choice (seq : list string) : Prog string :=
  match seq with
  | [] => Throw (Builtin IndexError)
  | _ :: _ =>
      i <- perform (E_randint 0 (Z.of_nat (length seq) - 1)) ;;
      match seq !! Z.to_nat i with
      | Some x => Ret x
      | None => Throw (Builtin IndexError)
      end
  end.

(** MusicBot.cmd_choice *)
Definition cmd_choice (cfg : Config) (message : Message) : Prog (option Response) :=
  let choices := argument_text cfg "choice" message in
  if (String.length choices =? 0)%nat then
    Ret (Some (mkResponse "I don't see any choices to make" false 20))
  else
    chosen <- random_choice (Text.split_on ";" choices) ;;
    Ret (Some (mkResponse ("I choose **" +:+ chosen +:+ "**") false 20)).

(** MusicBot.cmd_coinflip *)
Definition cmd_coinflip (message : Message) : Prog (option Response) :=
  side <- random_choice ["heads"; "tails"] ;;
  Ret (Some (mkResponse ("I flipped a **" +:+ side +:+ "**") false 20)).

(** MusicBot.cmd_say *)
Definition cmd_say (cfg : Config) (message : Message) : Prog (option Response) :=
  Ret (Some (mkResponse (argument_text cfg "say" message) false 20)).


(** The lines printed in a run. *)
Definition printed (tr : list Event) : list string :=
  omap (fun ev => match ev with
                  | Ev (E_print text) _ => Some text
                  | _ => None
                  end) tr.

(** The pages fetched in a run. *)
Definition fetched (tr : list Event) : list string :=
  omap (fun ev => match ev with
                  | Ev (E_http_get url) _ => Some url
                  | _ => None
                  end) tr.

(** The keyword arguments that the handler finds after binding. *)
Definition kwargs_at_call (st : Binding) : gmap string value :=
  deref (args (bind_positional (params st) st))
        (handler_kwargs (bind_positional (params st) st)).

(** A run of [on_message] that comes to the call of the handler: the
    command resolves, parameter binding completes with the run [tr] and the
    state [st], the permission gate lets the command pass and no parameter
    is left. *)
Definition reaches_handler (w : Oracle) (self : MusicBot) (message : Message)
    (command : string) (handler : Handler) (tokens : list string)
    (tr : list Event) (st : Binding) : Prop :=
  resolve self message = Some (command, handler, tokens) ∧
  exec w 1 (bind_context message (permissions self (author message))
              (mkBinding (handler_params handler) ∅ tokens [])) = (tr, Ok st) ∧
  permitted (config self) message (permissions self (author message)) command ∧
  params (bind_positional (params st) st) = [].

(** More environments and inputs to run the programs. *)
Module Cases.
Import Demo.

(** The handler fails with [e]; the platform delivers every message. *)
Definition failing (e : exn) : Oracle :=
  fun n eff =>
    match eff as e0 return answer e0 with
    | E_handler _ _ => Err e
    | other => platform None n other
    end.

(** The platform refuses every message with [cls]. *)
Definition refusing (cls : builtin_class) : Oracle :=
  fun n eff =>
    match eff as e0 return answer e0 with
    | E_send_message _ _ => Err (Builtin cls)
    | other => platform None n other
    end.

Definition banned : PermissionGroup := mkGroup "Banned" {["help"]} {["shutdown"; "roll"]}.

(** The owner is put into the most restricted group. *)
Definition strict_bot : MusicBot := ainnie (settings true true) (fun _ => banned).


Definition thanks : Response := mkResponse "You are welcome" true 0.

Definition dancing : Message := says guest lobby "!dance now".

Definition whisper : Message := says owner direct "!help".

Definition owner_rolls : Message := says owner lobby "!roll 20".

Definition leaving : Message := says guest lobby "!shutdown".

(** The state of binding for a handler that takes the message only. *)
Definition with_message (m : Message) (tokens : list string) : Binding :=
  mkBinding [] {["message" := VMessage m]} tokens [].

Definition with_channel (c : Channel) (tokens : list string) : Binding :=
  mkBinding [] {["channel" := VChannel c]} tokens [].

Definition refusal : exn := Failure PermissionsError "Only the owner can use this command" 30.

Definition nameless : Message := says guest lobby "!setname".

Definition greeting : Message := says guest direct "hello <@193778484869332993>".

(** A group without whitelist that blacklists two commands. *)
Definition muted : PermissionGroup := mkGroup "Muted" ∅ {["say"; "roll"]}.

(** The roll command with its keyword in capitals. *)
Definition shouting : Message := says guest lobby "!ROLL 20".



End Cases.

(** * Properties *)

(** ** Runs of composed programs *)

Lemma exec_bind {A B : Type} (w : Oracle) (p : Prog A) (f : A -> Prog B) (n : nat) :
  exec w n (bind p f) =
  match exec w n p with
  | (tr, Ok a) => let '(tr', r) := exec w (n + length tr)%nat (f a) in (tr ++ tr', r)
  | (tr, Err e) => (tr, Err e)
  end.
Proof.
  revert n. induction p as [a | e | eff k IH]; intros n; simpl.
  - rewrite Nat.add_0_r. destruct (exec w n (f a)); reflexivity.
  - reflexivity.
  - rewrite IH. destruct (exec w (S n) (k (w n eff))) as [tr [a | e]]; simpl; [|reflexivity].
    rewrite Nat.add_succ_r.
    destruct (exec w (S (n + length tr)) (f a)); reflexivity.
Qed.

Lemma exec_try_except {A : Type} (w : Oracle) (p : Prog A) (h : exn -> Prog A) (n : nat) :
  exec w n (try_except p h) =
  match exec w n p with
  | (tr, Ok a) => (tr, Ok a)
  | (tr, Err e) => let '(tr', r) := exec w (n + length tr)%nat (h e) in (tr ++ tr', r)
  end.
Proof.
  revert n. induction p as [a | e | eff k IH]; intros n; simpl.
  - reflexivity.
  - rewrite Nat.add_0_r. destruct (exec w n (h e)); reflexivity.
  - rewrite IH. destruct (exec w (S n) (k (w n eff))) as [tr [a | e]]; simpl; [reflexivity|].
    rewrite Nat.add_succ_r.
    destruct (exec w (S (n + length tr)) (h e)); reflexivity.
Qed.

Lemma exec_perform_then {A : Type} (w : Oracle) (n : nat) (eff : Effect) (p : Prog A) :
  exec w n (perform eff ;;; p) =
  let '(tr, r) := exec w (S n) p in (Ev eff (w n eff) :: tr, r).
Proof. reflexivity. Qed.

(** ** Parameter binding *)

Section Binding_facts.
Context {L : Library}.

Lemma pop_other (key : string) (ps : list Param) (p : Param) :
  p ∈ ps -> param_name p ≠ key -> p ∈ pop key ps.
Proof. intros Hin Hne. unfold pop. by apply list_elem_of_filter. Qed.

(** One pass of the loop: the [i]-th parameter of the pass takes the
    [i]-th token, the other keys keep their value, the tokens of the pass
    leave the list. *)
Lemma bind_positional_spec (items : list Param) (st : Binding) :
  NoDup (param_name <$> items) ->
  (forall i p, items !! i = Some p ->
     handler_kwargs (bind_positional items st) !! param_name p =
     match args st !! i with
     | Some token => Some (VStr token)
     | None => handler_kwargs st !! param_name p
     end) ∧
  (forall key, key ∉ param_name <$> items ->
     handler_kwargs (bind_positional items st) !! key = handler_kwargs st !! key) ∧
  args (bind_positional items st) = drop (length items) (args st).
Proof.
  revert st. induction items as [| param rest IH]; intros st Hnd.
  { simpl. split; [|split]; [intros i p Hi; by rewrite lookup_nil in Hi | done | done]. }
  apply NoDup_cons in Hnd as [Hfresh Hnd].
  assert (Hname : forall i p, rest !! i = Some p -> param_name p ≠ param_name param).
  { intros i p Hi Heq. apply Hfresh. rewrite <- Heq.
    apply list_elem_of_fmap. exists p. split; [done|]. by eapply list_elem_of_lookup_2. }
  destruct st as [ps kw tokens expected].
  destruct tokens as [| token remaining]; simpl.
  - assert (Hnone : forall ps',
      let st1 := mkBinding ps' kw [] (expected ++ [doc_key param]) in
      (forall i p, (param :: rest) !! i = Some p ->
         handler_kwargs (bind_positional rest st1) !! param_name p =
         match @nil string !! i with
         | Some token => Some (VStr token)
         | None => kw !! param_name p
         end) ∧
      (forall key, key ∉ param_name <$> param :: rest ->
         handler_kwargs (bind_positional rest st1) !! key = kw !! key) ∧
      args (bind_positional rest st1) = []).
    { intros ps' st1. destruct (IH st1 Hnd) as (Hpos & Hkeep & Hargs).
      split; [|split].
      - intros [| i] p Hi; simpl in Hi.
        + injection Hi as <-. by rewrite Hkeep.
        + rewrite (Hpos i p Hi). simpl. rewrite ?lookup_nil. done.
      - intros key Hkey. rewrite fmap_cons in Hkey.
        apply not_elem_of_cons in Hkey as [_ Hkey]. by rewrite Hkeep.
      - rewrite Hargs. simpl. by rewrite drop_nil. }
    destruct (param_default param); apply Hnone.
  - set (st1 := mkBinding (pop (param_name param) ps)
                  (<[param_name param := VStr token]> kw) remaining
                  (expected ++ [doc_key param])).
    assert (Hsome :
      (forall i p, (param :: rest) !! i = Some p ->
         handler_kwargs (bind_positional rest st1) !! param_name p =
         match (token :: remaining) !! i with
         | Some token => Some (VStr token)
         | None => kw !! param_name p
         end) ∧
      (forall key, key ∉ param_name <$> param :: rest ->
         handler_kwargs (bind_positional rest st1) !! key = kw !! key) ∧
      args (bind_positional rest st1) = drop (length rest) remaining).
    { destruct (IH st1 Hnd) as (Hpos & Hkeep & Hargs).
      split; [|split].
      - intros [| i] p Hi; simpl in Hi.
        + injection Hi as <-. rewrite Hkeep by done. apply lookup_insert_eq.
        + rewrite (Hpos i p Hi). simpl. destruct (remaining !! i); [done|].
          apply lookup_insert_ne. intros Heq. by apply (Hname i p Hi).
      - intros key Hkey. rewrite fmap_cons in Hkey.
        apply not_elem_of_cons in Hkey as [Hne Hkey]. rewrite Hkeep by done.
        by apply lookup_insert_ne.
      - done. }
    destruct (param_default param); apply Hsome.
Qed.

Lemma declares_elem_of (key : string) (ps : list Param) :
  declares key ps = true <-> key ∈ param_name <$> ps.
Proof. unfold declares. apply bool_decide_eq_true. Qed.

Lemma pop_undeclared (key : string) (ps : list Param) :
  declares key ps = false -> pop key ps = ps.
Proof.
  unfold declares, pop. intros Hno%bool_decide_eq_false.
  induction ps as [| p ps IH]; [done|].
  rewrite fmap_cons in Hno. apply not_elem_of_cons in Hno as [Hne Hno].
  rewrite filter_cons_True by done. by rewrite IH.
Qed.

Lemma bind_known_params (key : string) (v : value) (st : Binding) :
  params (bind_known key v st) = pop key (params st).
Proof.
  unfold bind_known. destruct (declares key (params st)) eqn:Hd; [done|].
  by rewrite pop_undeclared.
Qed.

Lemma bind_known_args (key : string) (v : value) (st : Binding) :
  args (bind_known key v st) = args st ∧
  args_expected (bind_known key v st) = args_expected st.
Proof. unfold bind_known. by destruct (declares key (params st)). Qed.

Lemma bind_known_frame (key key' : string) (v : value) (st : Binding) :
  key' ≠ key ->
  handler_kwargs (bind_known key v st) !! key' = handler_kwargs st !! key'.
Proof.
  intros Hne. unfold bind_known. destruct (declares key (params st)); [|done].
  simpl. by apply lookup_insert_ne.
Qed.

Lemma pop_recognised (ps : list Param) :
  pop "leftover_args" (pop "channel_mentions" (pop "user_mentions"
    (pop "permissions" (pop "player" (pop "server" (pop "author"
      (pop "channel" (pop "message" ps)))))))) =
  filter (fun p => param_name p ∉ recognised) ps.
Proof.
  unfold pop. rewrite !list_filter_filter. apply list_filter_iff.
  intros p. unfold recognised. rewrite !not_elem_of_cons.
  pose proof (not_elem_of_nil (param_name p)). tauto.
Qed.

Lemma declares_pop_ne (key key' : string) (ps : list Param) :
  key ≠ key' -> declares key (pop key' ps) = declares key ps.
Proof.
  intros Hne. unfold declares, pop. apply bool_decide_ext.
  rewrite !list_elem_of_fmap. split.
  - intros (p & -> & [_ Hp]%list_elem_of_filter). by exists p.
  - intros (p & -> & Hp). exists p. split; [done|].
    by apply list_elem_of_filter.
Qed.

Lemma NoDup_pop (key : string) (ps : list Param) :
  NoDup (param_name <$> ps) -> NoDup (param_name <$> pop key ps).
Proof.
  intros Hnd. eapply sublist_NoDup; try exact Hnd.
  apply fmap_sublist. unfold pop. apply sublist_filter.
Qed.

Lemma NoDup_positional (handler : Handler) :
  NoDup (param_name <$> handler_params handler) ->
  NoDup (param_name <$> positional handler).
Proof.
  intros Hnd. eapply sublist_NoDup; try exact Hnd.
  apply fmap_sublist. unfold positional. apply sublist_filter.
Qed.

(** The loop pops only the keys it goes through. *)
Lemma bind_positional_other (items : list Param) (st : Binding) (p : Param) :
  param_name p ∉ param_name <$> items ->
  p ∈ params st -> p ∈ params (bind_positional items st).
Proof.
  revert st. induction items as [| q rest IH]; intros st Hfresh Hin; [done|].
  rewrite fmap_cons in Hfresh. apply not_elem_of_cons in Hfresh as [Hne Hfresh].
  simpl. destruct (args st), (param_default q);
    apply IH; simpl; try done; by apply pop_other.
Qed.

(** A parameter without default that finds no token is still in [params]
    after the loop. *)
Lemma bind_positional_keeps (items : list Param) (st : Binding) (i : nat) (p : Param) :
  NoDup (param_name <$> items) ->
  items !! i = Some p -> param_default p = None ->
  (length (args st) <= i)%nat ->
  p ∈ params st -> p ∈ params (bind_positional items st).
Proof.
  revert st i. induction items as [| q rest IH]; intros st i Hnd Hi Hdef Hlen Hin.
  { by rewrite lookup_nil in Hi. }
  rewrite fmap_cons in Hnd. apply NoDup_cons in Hnd as [Hfresh Hnd].
  destruct i as [| i]; simpl in Hi.
  - injection Hi as ->. simpl. rewrite Hdef.
    destruct (args st) as [| a l] eqn:Hargs; [|simpl in Hlen; lia].
    by apply bind_positional_other.
  - assert (Hne : param_name p ≠ param_name q).
    { intros Heq. apply Hfresh. rewrite <- Heq. apply list_elem_of_fmap.
      exists p. split; [done|]. by eapply list_elem_of_lookup_2. }
    simpl. destruct (args st) as [| a l] eqn:Hargs, (param_default q);
      apply (IH _ i); simpl; try done; try lia; try by apply pop_other.
    all: simpl in Hlen; lia.
Qed.

Lemma player_step (w : Oracle) (n : nat) (message : Message) (st st' : Binding)
    (tr : list Event) :
  exec w n (if declares "player" (params st)
            then p <- call (E_get_player (channel message)) (fun x => x) ;;
                 Ret (set_kwarg "player" (VPlayer p) st)
            else Ret st) = (tr, Ok st') ->
  params st' = pop "player" (params st) ∧ args st' = args st ∧
  args_expected st' = args_expected st ∧ quiet tr ∧
  (forall key, key ≠ "player" -> handler_kwargs st' !! key = handler_kwargs st !! key).
Proof.
  destruct (declares "player" (params st)) eqn:Hd; simpl.
  - destruct (w n (E_get_player (channel message))) as [p | e]; simpl; [|done].
    intros [= <- <-]. repeat split; try done.
    intros key Hne. simpl. by apply lookup_insert_ne.
  - intros [= <- <-]. rewrite pop_undeclared by done. by repeat split.
Qed.

Lemma mentions_step (w : Oracle) (n : nat) (key : string) (v : Server -> value)
    (message : Message) (st st' : Binding) (tr : list Event) :
  exec w n (if declares key (params st)
            then match server message with
                 | Some s => Ret (set_kwarg key (v s) st)
                 | None => Throw (Builtin AttributeError)
                 end
            else Ret st) = (tr, Ok st') ->
  params st' = pop key (params st) ∧ args st' = args st ∧
  args_expected st' = args_expected st ∧ tr = [] ∧
  (forall key', key' ≠ key -> handler_kwargs st' !! key' = handler_kwargs st !! key').
Proof.
  destruct (declares key (params st)) eqn:Hd; simpl.
  - destruct (server message); simpl; [|done]. intros [= <- <-].
    repeat split; try done. intros key' Hne. simpl. by apply lookup_insert_ne.
  - intros [= <- <-]. by rewrite pop_undeclared.
Qed.

(** Binding of the recognised names: what is left in [params] are the
    positional parameters, the tokens are untouched, and a declared
    [leftover_args] holds the token list itself. *)
Lemma bind_context_ok (w : Oracle) (n : nat) (message : Message)
    (g : PermissionGroup) (st0 st : Binding) (tr : list Event) :
  exec w n (bind_context message g st0) = (tr, Ok st) ->
  params st = filter (fun p => param_name p ∉ recognised) (params st0) ∧
  args st = args st0 ∧ args_expected st = args_expected st0 ∧
  (declares "leftover_args" (params st0) = true ->
   handler_kwargs st !! "leftover_args" = Some VArgs) ∧
  (forall key, key ∉ recognised ->
   handler_kwargs st !! key = handler_kwargs st0 !! key) ∧
  quiet tr.
Proof.
  unfold bind_context.
  set (st4 := bind_known "server" _ (bind_known "author" _
               (bind_known "channel" _ (bind_known "message" _ st0)))).
  rewrite exec_bind.
  destruct (exec w n (if declares "player" (params st4) then _ else _))
    as [tr1 [st5 | e]] eqn:H1; [|done].
  apply player_step in H1 as (Hp5 & Ha5 & He5 & Hq1 & Hk5).
  set (st6 := bind_known "permissions" (VPermissions g) st5).
  rewrite exec_bind.
  destruct (exec w (n + length tr1) (if declares "user_mentions" (params st6) then _ else _))
    as [tr2 [st7 | e]] eqn:H2; [|done].
  apply (mentions_step _ _ "user_mentions" (fun s => VMembers s (raw_mentions message)))
    in H2 as (Hp7 & Ha7 & He7 & -> & Hk7).
  rewrite exec_bind.
  destruct (exec w (n + length tr1 + length []) (if declares "channel_mentions" (params st7) then _ else _))
    as [tr3 [st8 | e]] eqn:H3; [|done].
  apply (mentions_step _ _ "channel_mentions"
           (fun s => VChannels s (raw_channel_mentions message)))
    in H3 as (Hp8 & Ha8 & He8 & -> & Hk8).
  simpl. intros [= <- <-]. rewrite !app_nil_r.
  assert (Hp : params st8 =
               pop "channel_mentions" (pop "user_mentions" (pop "permissions"
                 (pop "player" (pop "server" (pop "author" (pop "channel"
                   (pop "message" (params st0))))))))).
  { rewrite Hp8, Hp7. unfold st6. rewrite bind_known_params, Hp5.
    unfold st4. by rewrite !bind_known_params. }
  split; [|split; [|split; [|split; [|split]]]].
  - rewrite bind_known_params, Hp. apply pop_recognised.
  - rewrite (proj1 (bind_known_args _ _ _)), Ha8, Ha7. unfold st6.
    rewrite (proj1 (bind_known_args _ _ _)), Ha5. unfold st4.
    by rewrite !(proj1 (bind_known_args _ _ _)).
  - rewrite (proj2 (bind_known_args _ _ _)), He8, He7. unfold st6.
    rewrite (proj2 (bind_known_args _ _ _)), He5. unfold st4.
    by rewrite !(proj2 (bind_known_args _ _ _)).
  - intros Hd. unfold bind_known at 1.
    rewrite Hp, !declares_pop_ne, Hd by done. simpl. apply lookup_insert_eq.
  - intros key Hkey. unfold recognised in Hkey.
    repeat (apply not_elem_of_cons in Hkey as [? Hkey]).
    rewrite bind_known_frame, Hk8, Hk7 by done. unfold st6.
    rewrite bind_known_frame, Hk5 by done. unfold st4.
    by rewrite !bind_known_frame.
  - done.
Qed.

End Binding_facts.

(** ** The stages of the router *)

Section Router_facts.
Context {L : Library}.

Lemma handler_free_bind {A B : Type} (p : Prog A) (f : A -> Prog B) :
  handler_free p -> (forall a, handler_free (f a)) -> handler_free (bind p f).
Proof.
  induction p as [a | e | eff k IH]; simpl; [auto | auto |].
  intros [Heff Hk] Hf. split; [done|]. intros x. by apply IH.
Qed.

Lemma handler_free_trace {A : Type} (w : Oracle) (n : nat) (p : Prog A) :
  handler_free p ->
  invocations (fst (exec w n p)) = [] ∧ returned (fst (exec w n p)) = [].
Proof.
  revert n. induction p as [a | e | eff k IH]; intros n; simpl; [done | done |].
  intros [Heff Hk]. destruct (IH (w n eff) (S n) (Hk _)) as [Hi Hr].
  destruct (exec w (S n) (k (w n eff))) as [tr r]. simpl in *.
  by destruct eff.
Qed.

Lemma safe_send_message_handler_free (dest : Channel) (text : string)
    (expire_in : option Z) (also_delete : option Message) (quiet_ : bool) :
  handler_free (safe_send_message dest text expire_in also_delete quiet_).
Proof.
  unfold safe_send_message. simpl. split; [done|].
  intros [msg | [cls text' expire | cls | []]]; simpl;
    destruct (truthy expire_in), also_delete, quiet_; simpl; tauto.
Qed.

Lemma send_response_handler_free (cfg : Config) (message : Message)
    (response : option Response) :
  handler_free (send_response cfg message response).
Proof.
  destruct response as [r |]; [|done]. unfold send_response.
  apply handler_free_bind; [apply safe_send_message_handler_free | done].
Qed.

Lemma send_usage_handler_free (cfg : Config) (message : Message) (command : string)
    (handler : Handler) (st : Binding) :
  handler_free (send_usage cfg message command handler st).
Proof.
  unfold send_usage. apply handler_free_bind.
  - by destruct (str_format _ _).
  - intros text. apply handler_free_bind; [apply safe_send_message_handler_free | done].
Qed.

Lemma dispatch_except_handler_free (cfg : Config) (message : Message) (e : exn) :
  handler_free (dispatch_except cfg message e).
Proof.
  destruct e as [cls text expire | cls | cls]; unfold dispatch_except.
  - apply handler_free_bind; [done|]. intros _.
    apply handler_free_bind; [apply safe_send_message_handler_free | done].
  - done.
  - apply handler_free_bind; [done|]. intros _.
    destruct (debug_mode cfg); [|done].
    apply handler_free_bind; [done|]. intros tb.
    apply handler_free_bind; [apply safe_send_message_handler_free | done].
Qed.

(** The permission gate, case by case. *)
Lemma gate_whitelist (cfg : Config) (message : Message) (g : PermissionGroup)
    (command : string) :
  user_id (author message) ≠ owner_id cfg ->
  command_whitelist g ≠ ∅ -> command ∉ command_whitelist g ->
  check_permissions cfg message g command =
  Throw (Failure PermissionsError (whitelist_message g) 20).
Proof.
  intros Hne Hwl Hout. unfold check_permissions.
  by rewrite (bool_decide_eq_true_2 _ Hne), (bool_decide_eq_true_2 _ Hwl),
    (bool_decide_eq_true_2 _ Hout).
Qed.

Lemma gate_blacklist (cfg : Config) (message : Message) (g : PermissionGroup)
    (command : string) :
  user_id (author message) ≠ owner_id cfg ->
  command_whitelist g = ∅ ∨ command ∈ command_whitelist g ->
  command_blacklist g ≠ ∅ -> command ∈ command_blacklist g ->
  check_permissions cfg message g command =
  Throw (Failure PermissionsError (blacklist_message g) 20).
Proof.
  intros Hne Hwl Hbl Hin. unfold check_permissions.
  rewrite (bool_decide_eq_true_2 _ Hne).
  assert (bool_decide (command_whitelist g ≠ ∅)
          && bool_decide (command ∉ command_whitelist g) = false) as ->.
  { destruct Hwl as [Hwl | Hwl].
    - by rewrite (bool_decide_eq_false_2 (command_whitelist g ≠ ∅)) by tauto.
    - rewrite (bool_decide_eq_false_2 (command ∉ command_whitelist g)) by tauto.
      by rewrite andb_false_r. }
  by rewrite (bool_decide_eq_true_2 _ Hbl), (bool_decide_eq_true_2 _ Hin).
Qed.

Lemma gate_permitted (cfg : Config) (message : Message) (g : PermissionGroup)
    (command : string) :
  permitted cfg message g command ->
  check_permissions cfg message g command = Ret tt.
Proof.
  intros [Howner | [Hwl Hbl]]; unfold check_permissions.
  - by rewrite bool_decide_eq_false_2 by tauto.
  - destruct (bool_decide (user_id (author message) ≠ owner_id cfg)); [|done].
    assert (bool_decide (command_whitelist g ≠ ∅)
            && bool_decide (command ∉ command_whitelist g) = false) as ->.
    { destruct Hwl as [Hwl | Hwl].
      - by rewrite (bool_decide_eq_false_2 (command_whitelist g ≠ ∅)) by tauto.
      - rewrite (bool_decide_eq_false_2 (command ∉ command_whitelist g)) by tauto.
        by rewrite andb_false_r. }
    assert (bool_decide (command_blacklist g ≠ ∅)
            && bool_decide (command ∈ command_blacklist g) = false) as ->; [|done].
    destruct Hbl as [Hbl | Hbl].
    + by rewrite (bool_decide_eq_false_2 (command_blacklist g ≠ ∅)) by tauto.
    + rewrite (bool_decide_eq_false_2 (command ∈ command_blacklist g)) by tauto.
      by rewrite andb_false_r.
Qed.

(** A resolved command enters the try statement after one line of log. *)
Lemma on_message_resolve (self : MusicBot) (message : Message) (command : string)
    (handler : Handler) (tokens : list string) :
  resolve self message = Some (command, handler, tokens) ->
  exists line,
    on_message self message =
    (perform (E_print line) ;;;
     dispatch (config self) message (permissions self (author message))
              command handler tokens).
Proof.
  unfold resolve, on_message. intros H.
  destruct (user_bot (author message)); [done|].
  destruct (negb (Text.startswith _ _)); [done|].
  destruct (user_eqb _ _); [done|].
  destruct (_ && _ && negb (is_private _)); [done|].
  destruct (Text.split _) as [| first rest]; [done|].
  destruct (getattr self _) as [h |]; [|done].
  destruct (is_private (channel message) && _); [done|].
  injection H as <- <- <-. by eexists.
Qed.

Lemma exec_on_message_resolve (w : Oracle) (self : MusicBot) (message : Message)
    (command : string) (handler : Handler) (tokens : list string) :
  resolve self message = Some (command, handler, tokens) ->
  exists ev,
    quiet [ev] ∧
    exec w O (on_message self message) =
    (ev :: fst (exec w 1 (dispatch (config self) message
                            (permissions self (author message))
                            command handler tokens)),
     snd (exec w 1 (dispatch (config self) message
                      (permissions self (author message))
                      command handler tokens))).
Proof.
  intros [line ->]%on_message_resolve. rewrite exec_perform_then.
  exists (Ev (E_print line) (w O (E_print line))). split; [by repeat split|].
  by destruct (exec w 1 _).
Qed.

(** What a call of [safe_send_message] leaves in the run. *)
Lemma safe_send_message_sent (w : Oracle) (n : nat) (dest : Channel) (text : string)
    (expire_in : option Z) (also_delete : option Message) (quiet_ : bool) :
  sent_texts (fst (exec w n (safe_send_message dest text expire_in also_delete quiet_)))
  = [(dest, text)].
Proof.
  unfold safe_send_message. simpl.
  destruct (w n (E_send_message dest text)) as [msg | [cls t x | cls | []]];
    destruct (truthy expire_in), also_delete, quiet_; reflexivity.
Qed.

Lemma safe_send_message_scheduled (w : Oracle) (n : nat) (dest : Channel)
    (text : string) (expire_in : option Z) (also_delete : option Message)
    (quiet_ : bool) (sent m : Message) :
  w n (E_send_message dest text) = Ok sent ->
  scheduled m (fst (exec w n (safe_send_message dest text expire_in also_delete quiet_)))
  = (if truthy expire_in then if decide (sent = m) then [expire_in] else [] else [])
    ++ match also_delete with
       | Some invoking => if decide (invoking = m) then [expire_in] else []
       | None => []
       end.
Proof.
  intros Hsent. unfold safe_send_message. simpl. rewrite Hsent.
  destruct (truthy expire_in), also_delete as [invoking |]; simpl;
    repeat case_decide; reflexivity.
Qed.

(** The body of the try statement stops at the gate when the gate raises:
    the run is the run of parameter binding and nothing more. *)
Lemma dispatch_body_gate_raises (w : Oracle) (n : nat) (cfg : Config)
    (message : Message) (g : PermissionGroup) (command : string)
    (handler : Handler) (tokens : list string) (tr : list Event) (st : Binding)
    (e : exn) :
  exec w n (bind_context message g (mkBinding (handler_params handler) ∅ tokens []))
  = (tr, Ok st) ->
  check_permissions cfg message g command = Throw e ->
  exec w n (dispatch_body cfg message g command handler tokens) = (tr, Err e).
Proof.
  intros Hbind Hgate. unfold dispatch_body.
  rewrite exec_bind, Hbind, Hgate. simpl. by rewrite app_nil_r.
Qed.

(** When the gate lets the command pass, the body goes on with the usage
    text or with the call of the handler. *)
Lemma dispatch_body_passes (w : Oracle) (n : nat) (cfg : Config)
    (message : Message) (g : PermissionGroup) (command : string)
    (handler : Handler) (tokens : list string) (tr : list Event) (st : Binding) :
  exec w n (bind_context message g (mkBinding (handler_params handler) ∅ tokens []))
  = (tr, Ok st) ->
  check_permissions cfg message g command = Ret tt ->
  exec w n (dispatch_body cfg message g command handler tokens) =
  let st' := bind_positional (params st) st in
  let '(tr', r) :=
    exec w (n + length tr)%nat
      match params st' with
      | _ :: _ => send_usage cfg message command handler st'
      | [] =>
          response <- call (E_handler command (deref (args st') (handler_kwargs st')))
                           (fun x => x) ;;
          send_response cfg message response
      end in
  (tr ++ tr', r).
Proof.
  intros Hbind Hgate. unfold dispatch_body.
  rewrite exec_bind, Hbind, Hgate. reflexivity.
Qed.

Lemma exec_dispatch (w : Oracle) (n : nat) (cfg : Config) (message : Message)
    (g : PermissionGroup) (command : string) (handler : Handler)
    (tokens : list string) :
  exec w n (dispatch cfg message g command handler tokens) =
  match exec w n (dispatch_body cfg message g command handler tokens) with
  | (tr, Ok a) => (tr, Ok a)
  | (tr, Err e) =>
      let '(tr', r) := exec w (n + length tr)%nat (dispatch_except cfg message e) in
      (tr ++ tr', r)
  end.
Proof. apply exec_try_except. Qed.

(** An application failure is shown to the user in a code block, and
    nothing else is sent. *)
Lemma dispatch_except_failure (w : Oracle) (n : nat) (cfg : Config)
    (message : Message) (cls : failure_class) (text : string) (expire : Z) :
  sent_texts (fst (exec w n (dispatch_except cfg message (Failure cls text expire))))
  = [(channel message, code_block text)].
Proof.
  unfold dispatch_except, safe_send_message. simpl.
  destruct (w (S n) (E_send_message (channel message) (code_block text)))
    as [msg | [c t x | c | []]];
    destruct (delete_messages cfg), (delete_invoking cfg); simpl;
    try destruct (negb (expire =? 0)); reflexivity.
Qed.

Lemma exec_then_ret {A B : Type} (w : Oracle) (n : nat) (p : Prog A) (b : B) :
  fst (exec w n (p ;;; Ret b)) = fst (exec w n p).
Proof.
  rewrite exec_bind. destruct (exec w n p) as [tr [a | e]]; [|done].
  cbn [exec fst]. apply app_nil_r.
Qed.

Lemma bind_context_handler_free (message : Message) (g : PermissionGroup)
    (st : Binding) :
  handler_free (bind_context message g st).
Proof.
  unfold bind_context. apply handler_free_bind.
  { destruct (declares "player" _); [|done].
    unfold call. cbn [bind handler_free]. split; [done|].
    by intros [p | e]. }
  intros st5. apply handler_free_bind.
  { destruct (declares "user_mentions" _); [|done]. by destruct (server message). }
  intros st7. apply handler_free_bind; [|done].
  destruct (declares "channel_mentions" _); [|done]. by destruct (server message).
Qed.

Lemma gate_cases (cfg : Config) (message : Message) (g : PermissionGroup)
    (command : string) :
  check_permissions cfg message g command = Ret tt ∨
  exists e, check_permissions cfg message g command = Throw e.
Proof.
  unfold check_permissions.
  repeat match goal with |- context [if ?b then _ else _] => destruct b end;
    eauto.
Qed.

(** The call of the handler and what follows it. *)
Lemma exec_invoke (w : Oracle) (m : nat) (cfg : Config) (message : Message)
    (command : string) (kw : gmap string value) :
  invocations (fst (exec w m (response <- call (E_handler command kw) (fun x => x) ;;
                              send_response cfg message response)))
  = [(command, kw)].
Proof.
  unfold call. cbn [bind exec].
  destruct (w m (E_handler command kw)) as [response | e]; cbn [lift bind].
  - pose proof (handler_free_trace w (S m) _
                  (send_response_handler_free cfg message response)) as [Hfree _].
    destruct (exec w (S m) (send_response cfg message response)) as [tr r].
    cbn [fst] in *.
    change (invocations ([Ev (E_handler command kw) (Ok response)] ++ tr)
            = [(command, kw)]).
    unfold invocations in *. by rewrite omap_app, Hfree.
  - reflexivity.
Qed.

(** The text sent when a parameter is left. *)
Lemma send_usage_sent (w : Oracle) (n : nat) (cfg : Config) (message : Message)
    (command : string) (handler : Handler) (st : Binding) (text : string) :
  str_format (usage_docs cfg command handler st) (command_prefix cfg) = Ok text ->
  sent_texts (fst (exec w n (send_usage cfg message command handler st)))
  = [(channel message, code_block text)].
Proof.
  intros Hformat. unfold send_usage. rewrite Hformat. cbn [lift bind].
  rewrite exec_then_ret. apply safe_send_message_sent.
Qed.

(** The deletions that the delivery of a reply schedules, once the
    platform has created the message [sent] for it. *)
Lemma send_response_scheduled (w : Oracle) (n : nat) (cfg : Config)
    (message : Message) (r : Response) (sent m : Message) :
  w n (E_send_message (channel message) (response_text message r)) = Ok sent ->
  let expire := Some (if delete_messages cfg then delete_after r else 0) in
  scheduled m (fst (exec w n (send_response cfg message (Some r))))
  = (if truthy expire then if decide (sent = m) then [expire] else [] else [])
    ++ (if delete_invoking cfg
        then if decide (message = m) then [expire] else []
        else []) ∧
  snd (exec w n (send_response cfg message (Some r))) = Ok tt.
Proof.
  intros Hsent expire. split.
  - unfold send_response. rewrite exec_then_ret.
    rewrite (safe_send_message_scheduled w n _ _ _ _ _ sent m Hsent).
    by destruct (delete_invoking cfg).
  - unfold send_response, safe_send_message. cbn [bind exec]. rewrite Hsent.
    fold expire. destruct (truthy expire), (delete_invoking cfg); reflexivity.
Qed.

(** The run of the router on a command that reaches its handler, the
    handler returning [response]: behind the log line, the binding and the
    call come the events of the delivery. *)
Lemma on_message_delivers (w : Oracle) (self : MusicBot) (message : Message)
    (command : string) (handler : Handler) (tokens : list string)
    (tr : list Event) (st : Binding) (response : option Response) (m : Message) :
  let cfg := config self in
  let g := permissions self (author message) in
  let st' := bind_positional (params st) st in
  resolve self message = Some (command, handler, tokens) ->
  exec w 1 (bind_context message g (mkBinding (handler_params handler) ∅ tokens []))
  = (tr, Ok st) ->
  permitted cfg message g command ->
  params st' = [] ->
  w (1 + length tr)%nat (E_handler command (deref (args st') (handler_kwargs st')))
  = Ok response ->
  snd (exec w (2 + length tr)%nat (send_response cfg message response)) = Ok tt ->
  scheduled m (trace w (on_message self message))
  = scheduled m (fst (exec w (2 + length tr)%nat (send_response cfg message response))) ∧
  invocations (trace w (on_message self message))
  = [(command, deref (args st') (handler_kwargs st'))].
Proof.
  intros cfg g st' Hres Hbind Hperm Hparams Hcall Hdone.
  destruct (bind_context_ok _ _ _ _ _ _ _ Hbind) as (_ & _ & _ & _ & _ & Hquiet).
  destruct Hquiet as (Hinv & _ & _ & _ & Hsched).
  destruct (exec_on_message_resolve w _ _ _ _ _ Hres) as (ev & Hev & Hrun).
  destruct Hev as (Hev_inv & _ & _ & _ & Hev_sched).
  pose proof (dispatch_body_passes w 1 cfg message g command handler tokens tr st
                Hbind (gate_permitted _ _ _ _ Hperm)) as Hbody.
  cbn zeta in Hbody. fold st' in Hbody. rewrite Hparams in Hbody.
  unfold call in Hbody. cbn [bind exec] in Hbody. rewrite Hcall in Hbody.
  cbn [lift bind] in Hbody.
  pose proof (handler_free_trace w (2 + length tr) _
                (send_response_handler_free cfg message response)) as [Hfree _].
  change (S (1 + length tr)) with (2 + length tr)%nat in Hbody.
  destruct (exec w (2 + length tr) (send_response cfg message response))
    as [tr' r] eqn:Hsend.
  cbn [fst snd] in Hdone, Hfree |- *. subst r.
  unfold trace. rewrite Hrun. cbn [fst]. fold cfg g.
  rewrite exec_dispatch, Hbody. cbn [fst].
  change (ev :: tr ++ ?e :: tr') with ([ev] ++ tr ++ [e] ++ tr').
  unfold scheduled, invocations in *.
  rewrite !omap_app, Hev_inv, Hinv, Hfree.
  rewrite (Hev_sched m), (Hsched m). split; reflexivity.
Qed.

End Router_facts.

(** ** The dispatch contract *)

Section Dispatch_contract.
Context {L : Library}.

(** C1.  For a dispatched command whose author is not the owner and whose
    parameter binding has completed: a non-empty whitelist without the
    command makes the body of dispatch raise the permissions failure with
    the message [This command is not enabled for your group (<name>).];
    when the whitelist lets the command pass, a non-empty blacklist with
    the command makes it raise the one with the message [This command is
    disabled for your group (<name>).], <name> being the name of the
    group of the author.  In both cases the run of the body is the run of
    parameter binding and nothing more, no handler is invoked, and what
    the user sees is that message in a code block. *)
Theorem permission_gate_rejects (self : MusicBot) (message : Message)
    (command : string) (handler : Handler) (tokens : list string)
    (w : Oracle) (tr : list Event) (st : Binding) :
  let cfg := config self in
  let g := permissions self (author message) in
  resolve self message = Some (command, handler, tokens) ->
  user_id (author message) ≠ owner_id cfg ->
  exec w 1 (bind_context message g (mkBinding (handler_params handler) ∅ tokens []))
  = (tr, Ok st) ->
  (command_whitelist g ≠ ∅ -> command ∉ command_whitelist g ->
     exec w 1 (dispatch_body cfg message g command handler tokens)
     = (tr, Err (Failure PermissionsError
                   ("This command is not enabled for your group (" +:+
                    group_name g +:+ ").") 20)) ∧
     invocations (trace w (on_message self message)) = [] ∧
     sent_texts (trace w (on_message self message))
     = [(channel message,
         code_block ("This command is not enabled for your group (" +:+
                     group_name g +:+ ")."))]) ∧
  (command_whitelist g = ∅ ∨ command ∈ command_whitelist g ->
   command_blacklist g ≠ ∅ -> command ∈ command_blacklist g ->
     exec w 1 (dispatch_body cfg message g command handler tokens)
     = (tr, Err (Failure PermissionsError
                   ("This command is disabled for your group (" +:+
                    group_name g +:+ ").") 20)) ∧
     invocations (trace w (on_message self message)) = [] ∧
     sent_texts (trace w (on_message self message))
     = [(channel message,
         code_block ("This command is disabled for your group (" +:+
                     group_name g +:+ ")."))]).
Proof.
  intros cfg g Hres Hne Hbind.
  destruct (bind_context_ok _ _ _ _ _ _ _ Hbind) as (_ & _ & _ & _ & _ & Hquiet).
  destruct Hquiet as (Hinv & _ & Hsent & _).
  destruct (exec_on_message_resolve w _ _ _ _ _ Hres) as (ev & Hev & Hrun).
  destruct Hev as (Hev_inv & _ & Hev_sent & _).
  assert (Hraise : forall text,
    check_permissions cfg message g command
    = Throw (Failure PermissionsError text 20) ->
    exec w 1 (dispatch_body cfg message g command handler tokens)
    = (tr, Err (Failure PermissionsError text 20)) ∧
    invocations (trace w (on_message self message)) = [] ∧
    sent_texts (trace w (on_message self message))
    = [(channel message, code_block text)]).
  { intros text Hgate.
    pose proof (dispatch_body_gate_raises w 1 cfg message g command handler tokens
                  tr st _ Hbind Hgate) as Hbody.
    split; [exact Hbody|].
    unfold trace. rewrite Hrun. cbn [fst]. fold cfg g.
    rewrite exec_dispatch, Hbody.
    pose proof (dispatch_except_failure w (1 + length tr) cfg message
                  PermissionsError text 20) as Hshown.
    pose proof (handler_free_trace w (1 + length tr) _
                  (dispatch_except_handler_free cfg message
                     (Failure PermissionsError text 20))) as [Hfree _].
    destruct (exec w (1 + length tr) (dispatch_except cfg message _)) as [tr' r].
    cbn [fst] in *. unfold invocations, sent_texts in *.
    change (ev :: tr ++ tr') with ([ev] ++ tr ++ tr').
    rewrite !omap_app, Hev_inv, Hev_sent, Hinv, Hsent, Hfree, Hshown. done. }
  split.
  - intros Hwl Hout. apply Hraise.
    change (check_permissions cfg message g command
            = Throw (Failure PermissionsError (whitelist_message g) 20)).
    by apply gate_whitelist.
  - intros Hwl Hbl Hin. apply Hraise.
    change (check_permissions cfg message g command
            = Throw (Failure PermissionsError (blacklist_message g) 20)).
    by apply gate_blacklist.
Qed.

(** C2, as amended.  For a dispatched command whose parameter binding
    has completed and whose author passes the permission gate: when a
    positional parameter without default finds no token (fewer tokens than
    its position asks for), no handler is invoked and the first text sent
    to the channel of the message is the usage documentation, with the
    placeholder of the command prefix substituted, in a code block. *)
Theorem usage_for_missing_argument (self : MusicBot) (message : Message)
    (command : string) (handler : Handler) (tokens : list string)
    (w : Oracle) (tr : list Event) (st : Binding) (i : nat) (p : Param)
    (text : string) :
  let cfg := config self in
  let g := permissions self (author message) in
  resolve self message = Some (command, handler, tokens) ->
  NoDup (param_name <$> handler_params handler) ->
  exec w 1 (bind_context message g (mkBinding (handler_params handler) ∅ tokens []))
  = (tr, Ok st) ->
  positional handler !! i = Some p -> param_default p = None ->
  (length tokens <= i)%nat ->
  permitted cfg message g command ->
  str_format (usage_docs cfg command handler (bind_positional (params st) st))
             (command_prefix cfg) = Ok text ->
  invocations (trace w (on_message self message)) = [] ∧
  head (sent_texts (trace w (on_message self message)))
  = Some (channel message, code_block text).
Proof.
  intros cfg g Hres Hnd Hbind Hi Hdef Hlen Hperm Hformat.
  destruct (bind_context_ok _ _ _ _ _ _ _ Hbind)
    as (Hparams & Hargs & _ & _ & _ & Hquiet).
  destruct Hquiet as (Hinv & _ & Hsent & _).
  cbn [params args] in Hparams, Hargs. fold (positional handler) in Hparams.
  assert (Hleft : p ∈ params (bind_positional (params st) st)).
  { apply (bind_positional_keeps _ _ i); rewrite ?Hparams, ?Hargs; try done.
    - by apply NoDup_positional.
    - by eapply list_elem_of_lookup_2. }
  destruct (exec_on_message_resolve w _ _ _ _ _ Hres) as (ev & Hev & Hrun).
  destruct Hev as (Hev_inv & _ & Hev_sent & _).
  pose proof (dispatch_body_passes w 1 cfg message g command handler tokens tr st
                Hbind (gate_permitted _ _ _ _ Hperm)) as Hbody.
  cbn zeta in Hbody.
  destruct (params (bind_positional (params st) st)) as [| q rest] eqn:Hps.
  { by apply elem_of_nil in Hleft. }
  pose proof (send_usage_sent w (1 + length tr) cfg message command handler
                (bind_positional (params st) st) text Hformat) as Husage.
  pose proof (handler_free_trace w (1 + length tr) _
                (send_usage_handler_free cfg message command handler
                   (bind_positional (params st) st))) as [Hfree _].
  destruct (exec w (1 + length tr) (send_usage _ _ _ _ _)) as [tr' r].
  cbn [fst] in Husage, Hfree.
  unfold trace. rewrite Hrun. cbn [fst]. fold cfg g.
  rewrite exec_dispatch, Hbody.
  assert (Hshape : exists tr'',
    fst (match r with
         | Ok a => (tr ++ tr', Ok a)
         | Err e =>
             let '(tr'', r') :=
               exec w (1 + length (tr ++ tr')) (dispatch_except cfg message e) in
             ((tr ++ tr') ++ tr'', r')
         end) = tr ++ tr' ++ tr'' ∧ invocations tr'' = []).
  { destruct r as [a | e].
    - exists []. by rewrite app_nil_r.
    - pose proof (handler_free_trace w (1 + length (tr ++ tr')) _
                    (dispatch_except_handler_free cfg message e)) as [Hex _].
      destruct (exec w _ (dispatch_except cfg message e)) as [tr'' r'].
      exists tr''. by rewrite <- app_assoc. }
  destruct Hshape as (tr'' & -> & Hex).
  change (ev :: tr ++ tr' ++ tr'') with ([ev] ++ tr ++ tr' ++ tr'').
  unfold invocations, sent_texts in *.
  rewrite !omap_app, Hev_inv, Hev_sent, Hinv, Hsent, Hfree, Husage, Hex. done.
Qed.


(** C9.  For a handler that declares [leftover_args]: the dictionary of
    keyword arguments holds the token list itself, so whenever dispatch
    calls the handler, [leftover_args] shows the tokens that are left
    after the positional parameters took theirs; with a positional
    parameter and a token, that is not the full token list. *)
Theorem leftover_args_is_the_token_list (w : Oracle) (n : nat) (cfg : Config)
    (message : Message) (g : PermissionGroup) (command : string)
    (handler : Handler) (tokens : list string) :
  NoDup (param_name <$> handler_params handler) ->
  declares "leftover_args" (handler_params handler) = true ->
  (forall tr st,
     exec w n (bind_context message g
                 (mkBinding (handler_params handler) ∅ tokens [])) = (tr, Ok st) ->
     handler_kwargs (bind_positional (params st) st) !! "leftover_args" = Some VArgs) ∧
  (forall called kwargs,
     (called, kwargs)
       ∈ invocations (fst (exec w n (dispatch_body cfg message g command handler tokens))) ->
     kwargs !! "leftover_args"
     = Some (VList (drop (length (positional handler)) tokens))) ∧
  (positional handler ≠ [] -> tokens ≠ [] ->
   drop (length (positional handler)) tokens ≠ tokens).
Proof.
  intros Hnd Hdecl.
  assert (Hshared : forall tr st,
     exec w n (bind_context message g
                 (mkBinding (handler_params handler) ∅ tokens [])) = (tr, Ok st) ->
     handler_kwargs (bind_positional (params st) st) !! "leftover_args" = Some VArgs ∧
     args (bind_positional (params st) st) = drop (length (positional handler)) tokens).
  { intros tr st Hbind.
    destruct (bind_context_ok _ _ _ _ _ _ _ Hbind)
      as (Hparams & Hargs & _ & Hleft & _ & _).
    cbn [params args] in Hparams, Hargs, Hleft.
    fold (positional handler) in Hparams.
    destruct (bind_positional_spec (params st) st) as (_ & Hkeep & Hrest).
    { rewrite Hparams. by apply NoDup_positional. }
    split; [|by rewrite Hrest, Hargs, Hparams].
    rewrite Hkeep; [by apply Hleft|].
    rewrite Hparams. intros (p & Hname & Hp)%list_elem_of_fmap.
    unfold positional in Hp. apply list_elem_of_filter in Hp as [Hp _].
    apply Hp. rewrite <- Hname. unfold recognised.
    rewrite !elem_of_cons. tauto. }
  split; [intros tr st Hbind; by apply (Hshared tr st)|]. split.
  - intros called kwargs Hin. unfold dispatch_body in Hin.
    rewrite exec_bind in Hin.
    pose proof (handler_free_trace w n _
                  (bind_context_handler_free message g
                     (mkBinding (handler_params handler) ∅ tokens []))) as [Hctx _].
    destruct (exec w n (bind_context _ _ _)) as [tr [st | e]] eqn:Hbind;
      cbn [fst] in Hctx.
    2: { cbn [fst] in Hin. rewrite Hctx in Hin. by apply elem_of_nil in Hin. }
    destruct (Hshared tr st eq_refl) as [Hleft Hrest].
    cbv beta iota zeta in Hin.
    destruct (gate_cases cfg message g command) as [Hgate | [e Hgate]];
      rewrite Hgate in Hin.
    2: { cbn [bind exec fst] in Hin. rewrite app_nil_r, Hctx in Hin.
         by apply elem_of_nil in Hin. }
    cbn [bind] in Hin.
    destruct (params (bind_positional (params st) st)) as [| q rest].
    + pose proof (exec_invoke w (n + length tr) cfg message command
                    (deref (args (bind_positional (params st) st))
                           (handler_kwargs (bind_positional (params st) st)))) as Hcall.
      destruct (exec w (n + length tr) _) as [tr' r]. cbn [fst] in Hin, Hcall.
      unfold invocations in *. rewrite omap_app, Hctx, Hcall in Hin.
      apply list_elem_of_singleton in Hin. injection Hin as -> ->.
      unfold deref. by rewrite lookup_fmap, Hleft, Hrest.
    + pose proof (handler_free_trace w (n + length tr) _
                    (send_usage_handler_free cfg message command handler
                       (bind_positional (params st) st))) as [Hfree _].
      destruct (exec w (n + length tr) _) as [tr' r]. cbn [fst] in Hin, Hfree.
      unfold invocations in *. rewrite omap_app, Hctx, Hfree in Hin.
      by apply elem_of_nil in Hin.
  - intros Hpos Htok Heq. apply (f_equal length) in Heq.
    rewrite length_drop in Heq.
    destruct (positional handler); [done|]. destruct tokens; [done|].
    simpl in Heq. lia.
Qed.

(** C4, as amended.  The exits of the router before it looks at the
    command are tested in this order: the author is a bot account (nothing
    happens); the text does not start with the command prefix (the
    message goes to the non-command path, which sends something only when
    the text holds the mention of the bot); the author is the bot itself
    (one line of log, nothing sent); a channel binding is configured, the
    channel is not in it and is not private (nothing happens). *)
Theorem preconditions_in_order (self : MusicBot) (message : Message)
    (w : Oracle) (reason : Exit) :
  precondition_exit self message = Some reason ->
  match reason with
  | BotAuthor => exec w O (on_message self message) = ([], Ok tt)
  | NoPrefix =>
      on_message self message
      = cleverbot_path message (Text.strip (content message)) ∧
      invocations (trace w (on_message self message)) = [] ∧
      (Text.contains bot_mention (Text.strip (content message)) = false ->
       exec w O (on_message self message) = ([], Ok tt))
  | OwnMessage =>
      sent_texts (trace w (on_message self message)) = [] ∧
      invocations (trace w (on_message self message)) = [] ∧
      length (trace w (on_message self message)) = 1%nat ∧
      outcome w (on_message self message) = Ok tt
  | UnboundChannel => exec w O (on_message self message) = ([], Ok tt)
  end.
Proof.
  unfold precondition_exit, on_message. intros H.
  destruct (user_bot (author message)).
  { by injection H as <-. }
  destruct (negb (Text.startswith _ _)).
  { injection H as <-. split; [done|].
    unfold cleverbot_path, trace.
    destruct (Text.contains bot_mention _); [|done]. split; [|done].
    apply handler_free_trace. unfold call. cbn [bind handler_free].
    split; [done|]. intros [text | e]; cbn [lift bind]; [|done].
    apply handler_free_bind; [apply safe_send_message_handler_free | done]. }
  destruct (user_eqb _ _).
  { injection H as <-. unfold trace, outcome, perform. cbn [exec fst snd].
    repeat split. by destruct (w O _). }
  destruct (_ && _ && negb (is_private _)); [|done].
  by injection H as <-.
Qed.

(** C6.  A command reaches its handler, the handler returns a reply with
    a positive delete delay and the platform creates the message [sent] for
    it: with the delete-messages setting on, the run of the router
    schedules one deletion of [sent], after the delay of the reply; with
    the setting off it schedules no deletion of [sent]. *)
Theorem reply_deletion_follows_setting (w : Oracle) (self : MusicBot)
    (message : Message) (command : string) (handler : Handler)
    (tokens : list string) (tr : list Event) (st : Binding) (r : Response)
    (sent : Message) :
  let cfg := config self in
  let g := permissions self (author message) in
  let st' := bind_positional (params st) st in
  resolve self message = Some (command, handler, tokens) ->
  exec w 1 (bind_context message g (mkBinding (handler_params handler) ∅ tokens []))
  = (tr, Ok st) ->
  permitted cfg message g command ->
  params st' = [] ->
  w (1 + length tr)%nat (E_handler command (deref (args st') (handler_kwargs st')))
  = Ok (Some r) ->
  0 < delete_after r ->
  w (2 + length tr)%nat (E_send_message (channel message) (response_text message r))
  = Ok sent ->
  sent ≠ message ->
  (delete_messages cfg = true ->
   scheduled sent (trace w (on_message self message)) = [Some (delete_after r)]) ∧
  (delete_messages cfg = false ->
   scheduled sent (trace w (on_message self message)) = []).
Proof.
  intros cfg g st' Hres Hbind Hperm Hparams Hcall Hpos Hsent Hne.
  destruct (send_response_scheduled w (2 + length tr) cfg message r sent sent Hsent)
    as [Hsched Hdone].
  destruct (on_message_delivers w self message command handler tokens tr st
              (Some r) sent Hres Hbind Hperm Hparams Hcall Hdone) as [-> _].
  fold cfg in Hsched |- *. rewrite Hsched.
  rewrite (decide_True (P := sent = sent)) by done.
  rewrite (decide_False (P := message = sent)) by done.
  assert (Hnone : (if delete_invoking cfg then @nil (option Z) else []) = [])
    by by destruct (delete_invoking cfg).
  rewrite Hnone. split; intros ->; cbn [truthy].
  - assert ((delete_after r =? 0) = false) as -> by lia. reflexivity.
  - reflexivity.
Qed.

(** C10.  A command reaches its handler, the handler returns a reply and
    the platform creates the message for it: with the delete-invoking
    setting on, the run of the router schedules one deletion of the
    invoking message, with the delay that the reply is sent with; with the
    delete-messages setting off that delay is zero, and the deletion is
    scheduled all the same. *)
Theorem invoking_message_deleted_without_delay (w : Oracle) (self : MusicBot)
    (message : Message) (command : string) (handler : Handler)
    (tokens : list string) (tr : list Event) (st : Binding) (r : Response)
    (sent : Message) :
  let cfg := config self in
  let g := permissions self (author message) in
  let st' := bind_positional (params st) st in
  resolve self message = Some (command, handler, tokens) ->
  exec w 1 (bind_context message g (mkBinding (handler_params handler) ∅ tokens []))
  = (tr, Ok st) ->
  permitted cfg message g command ->
  params st' = [] ->
  w (1 + length tr)%nat (E_handler command (deref (args st') (handler_kwargs st')))
  = Ok (Some r) ->
  w (2 + length tr)%nat (E_send_message (channel message) (response_text message r))
  = Ok sent ->
  sent ≠ message ->
  delete_invoking cfg = true ->
  scheduled message (trace w (on_message self message))
  = [Some (if delete_messages cfg then delete_after r else 0)] ∧
  (delete_messages cfg = false ->
   scheduled message (trace w (on_message self message)) = [Some 0]).
Proof.
  intros cfg g st' Hres Hbind Hperm Hparams Hcall Hsent Hne Hinvoking.
  destruct (send_response_scheduled w (2 + length tr) cfg message r sent message Hsent)
    as [Hsched Hdone].
  destruct (on_message_delivers w self message command handler tokens tr st
              (Some r) message Hres Hbind Hperm Hparams Hcall Hdone) as [-> _].
  fold cfg in Hsched |- *. rewrite Hsched, Hinvoking.
  rewrite (decide_True (P := message = message)) by done.
  rewrite (decide_False (P := sent = message)) by done.
  assert (Hnone : forall l : list (option Z),
            (if truthy (Some (if delete_messages cfg then delete_after r else 0))
             then [] else []) ++ l = l).
  { intros l. by destruct (truthy _). }
  rewrite Hnone. split; [reflexivity|]. intros ->. reflexivity.
Qed.

End Dispatch_contract.

(** ** Text *)

Section Text_facts.

Lemma append_cons (c : ascii) (a b : string) :
  String c a +:+ b = String c (a +:+ b).
Proof. reflexivity. Qed.

Lemma append_assoc (a b c : string) : (a +:+ b) +:+ c = a +:+ (b +:+ c).
Proof.
  induction a as [| x a IH]; [reflexivity|].
  by rewrite !append_cons, IH.
Qed.

Lemma prefix_empty (s : string) : String.prefix EmptyString s = true.
Proof. by destruct s. Qed.

Lemma prefix_append (a b : string) : String.prefix a (a +:+ b) = true.
Proof.
  induction a as [| x a IH]; [apply prefix_empty|].
  rewrite append_cons. cbn [String.prefix].
  by destruct (ascii_dec x x).
Qed.

(** Where a text occurs, its end occurs too. *)
Lemma prefix_contains_end (p k s : string) :
  String.prefix (p +:+ k) s = true -> Text.contains k s = true.
Proof.
  revert s. induction p as [| x p IH]; intros s.
  - change (EmptyString +:+ k) with k. intros Hk.
    destruct s; cbn [Text.contains]; by rewrite Hk.
  - rewrite append_cons. destruct s as [| y s]; cbn [String.prefix]; [done|].
    destruct (ascii_dec x y); [|done]. intros Hp%IH.
    cbn [Text.contains]. rewrite Hp. apply orb_true_r.
Qed.

Lemma contains_end (p k s : string) :
  Text.contains k s = false -> Text.contains (p +:+ k) s = false.
Proof.
  induction s as [| y s IH]; cbn [Text.contains]; intros Hk.
  - apply orb_false_iff in Hk as [Hk _]. rewrite orb_false_r.
    destruct (String.prefix (p +:+ k) EmptyString) eqn:Hp; [|done].
    apply prefix_contains_end in Hp. cbn [Text.contains] in Hp.
    by rewrite Hk in Hp.
  - apply orb_false_iff in Hk as [Hk Hs]. rewrite (IH Hs), orb_false_r.
    destruct (String.prefix (p +:+ k) (String y s)) eqn:Hp; [|done].
    apply prefix_contains_end in Hp. cbn [Text.contains] in Hp.
    by rewrite Hk, Hs in Hp.
Qed.

Lemma replace_go_absent (old new s : string) :
  Text.contains old s = false -> Text.replace_go old new O s = s.
Proof.
  induction s as [| y s IH]; [done|].
  cbn [Text.contains Text.replace_go].
  intros [Hp Hs]%orb_false_iff. by rewrite Hp, (IH Hs).
Qed.

Lemma replace_go_skip (old new a s : string) :
  Text.replace_go old new (String.length a) (a +:+ s) = Text.replace_go old new O s.
Proof.
  induction a as [| x a IH]; [by destruct s|].
  rewrite append_cons. cbn [String.length Text.replace_go]. exact IH.
Qed.

(** Removing a keyword in front of a text in which it does not occur. *)
Lemma replace_in_front (old rest : string) :
  old ≠ EmptyString -> Text.contains old rest = false ->
  Text.replace old EmptyString (old +:+ rest) = rest.
Proof.
  intros Hne Habsent. destruct old as [| x old]; [done|].
  pose proof (prefix_append (String x old) rest) as Hp.
  unfold Text.replace. rewrite append_cons in *.
  cbn [Text.replace_go]. rewrite Hp.
  replace (String.length (String x old) - 1)%nat with (String.length old)
    by (cbn [String.length]; lia).
  rewrite replace_go_skip.
  change (Text.replace_go (String x old) EmptyString O rest = rest).
  by apply replace_go_absent.
Qed.

Lemma argument_text_after (cfg : Config) (keyword rest : string) (message : Message) :
  content message = command_prefix cfg +:+ keyword +:+ rest ->
  keyword ≠ EmptyString -> Text.contains keyword rest = false ->
  argument_text cfg keyword message = Text.strip rest.
Proof.
  intros Hcontent Hne Habsent. unfold argument_text.
  rewrite Hcontent, <- append_assoc, replace_in_front; [done | |].
  - destruct (command_prefix cfg); [done|]. by rewrite append_cons.
  - by apply contains_end.
Qed.

End Text_facts.

(** ** The handlers *)

Section Handler_contract.
Context {L : Library}.

Lemma roll_draw (w : Oracle) (n : nat) (a b : Z) (notice : string) :
  snd (exec w n (k <- perform (E_randint a b) ;;
                 Ret (Some (mkResponse (notice +:+ rolled k) false 20))))
  = Ok (Some (mkResponse (notice +:+ rolled (w n (E_randint a b))) false 20)).
Proof. reflexivity. Qed.

(** The dice roll, the die being fair, on a message that is the command
    prefix, [roll] in small letters, a blank and the token:
    the token [0] gives a face between 1 and 6 behind the notice [I don't
    know what you wanted to roll. I rolled a 6-sided die instead]; [2000]
    gives a face between 1 and 1000 behind the notice [Too many sides. I
    rolled a 1000-sided die instead]; [20] gives a face between 1 and 20
    and no notice.  Whenever the text that is left of an ASCII message
    without prefix and [roll] is no integer literal, the reply is a face
    between 1 and 6 behind the first notice.  A notice is the first line of the
    reply, the face is on the next. *)
Theorem dice_roll_cases (cfg : Config) (message : Message) (w : Oracle) (n : nat) :
  fair w ->
  (content message = command_prefix cfg +:+ "roll 0" ->
   exists face, 1 <= face <= 6 ∧
     snd (exec w n (cmd_roll cfg message))
     = Ok (Some (mkResponse
                   ("I don't know what you wanted to roll. I rolled a 6-sided die instead"
                    +:+ String "010"%char
                          ("I rolled a **" +:+ Text.str_of_int face +:+ "**"))
                   false 20))) ∧
  (content message = command_prefix cfg +:+ "roll 2000" ->
   exists face, 1 <= face <= 1000 ∧
     snd (exec w n (cmd_roll cfg message))
     = Ok (Some (mkResponse
                   ("Too many sides. I rolled a 1000-sided die instead"
                    +:+ String "010"%char
                          ("I rolled a **" +:+ Text.str_of_int face +:+ "**"))
                   false 20))) ∧
  (Text.isascii (content message) = true ->
   Text.int (argument_text cfg "roll" message) = None ->
   exists face, 1 <= face <= 6 ∧
     snd (exec w n (cmd_roll cfg message))
     = Ok (Some (mkResponse
                   ("I don't know what you wanted to roll. I rolled a 6-sided die instead"
                    +:+ String "010"%char
                          ("I rolled a **" +:+ Text.str_of_int face +:+ "**"))
                   false 20))) ∧
  (content message = command_prefix cfg +:+ "roll 20" ->
   exists face, 1 <= face <= 20 ∧
     snd (exec w n (cmd_roll cfg message))
     = Ok (Some (mkResponse ("I rolled a **" +:+ Text.str_of_int face +:+ "**")
                   false 20))).
Proof.
  intros Hfair.
  assert (Harg : forall rest,
            content message = command_prefix cfg +:+ "roll" +:+ rest ->
            Text.contains "roll" rest = false ->
            argument_text cfg "roll" message = Text.strip rest).
  { intros rest Hc Ha. by apply argument_text_after. }
  split; [|split; [|split]].
  - intros Hc. exists (w n (E_randint 1 6)). split; [by apply Hfair|].
    unfold cmd_roll. rewrite (Harg " 0" Hc eq_refl).
    change (Text.int (Text.strip " 0")) with (Some 0).
    change (0 <? 1) with true. cbv iota. exact (roll_draw w n _ _ _).
  - intros Hc. exists (w n (E_randint 1 1000)). split; [by apply Hfair|].
    unfold cmd_roll. rewrite (Harg " 2000" Hc eq_refl).
    change (Text.int (Text.strip " 2000")) with (Some 2000).
    change (2000 <? 1) with false. change (1000 <? 2000) with true.
    cbv iota. exact (roll_draw w n _ _ _).
  - intros _ Hnone. exists (w n (E_randint 1 6)). split; [by apply Hfair|].
    unfold cmd_roll. rewrite Hnone. exact (roll_draw w n 1 6 roll_fallback_notice).
  - intros Hc. exists (w n (E_randint 1 20)). split; [by apply Hfair|].
    unfold cmd_roll. rewrite (Harg " 20" Hc eq_refl).
    change (Text.int (Text.strip " 20")) with (Some 20).
    change (20 <? 1) with false. change (1000 <? 20) with false.
    cbv iota. exact (roll_draw w n 1 20 EmptyString).
Qed.

(** The roll handler returns a reply on every text. *)
Lemma cmd_roll_returns (cfg : Config) (message : Message) (w : Oracle) (n : nat) :
  exists r, snd (exec w n (cmd_roll cfg message)) = Ok (Some r).
Proof.
  unfold cmd_roll. destruct (Text.int _) as [sides |]; [|by eexists].
  destruct (sides <? 1); [by eexists|]. destruct (1000 <? sides); by eexists.
Qed.

(** The timer handler answers a malformed number of seconds with a
    reply. *)
Lemma cmd_timer_malformed (cfg : Config) (message : Message) :
  Text.int (default EmptyString
              (head (Text.split_once " " (argument_text cfg "timer" message)))) = None ->
  cmd_timer cfg message
  = Ret (Some (mkResponse
                 ("That's not what I expected. The format is `" +:+
                  command_prefix cfg +:+
                  "timer [seconds] [optional reminder message].`") false 20)).
Proof.
  intros Hnone. unfold cmd_timer, int_of. rewrite Hnone. cbn [bind try_except only].
  by rewrite decide_True.
Qed.

(** The comic handler evaluates [int(query)] before it asks whether the
    query is a number: on a text that is no integer literal the ValueError
    leaves the handler. *)
Lemma cmd_xkcd_malformed (cfg : Config) (message : Message) :
  argument_text cfg "xkcd" message ≠ EmptyString ->
  Text.int (argument_text cfg "xkcd" message) = None ->
  Text.isdigit (argument_text cfg "xkcd" message) = false ->
  cmd_xkcd cfg message = Throw (Builtin ValueError).
Proof.
  intros Hne Hnone Hdigit. unfold cmd_xkcd, int_of.
  destruct (argument_text cfg "xkcd" message) as [| c q] eqn:Hq; [done|].
  cbn [String.length Nat.eqb]. rewrite Hdigit, Hnone. reflexivity.
Qed.


End Handler_contract.

(** * The contract on the commands of the class *)

Module Run.
Import Demo.

Ltac decided := refine (bool_decide_unpack _ _); vm_compute; exact I.

Lemma platform_fair (response : option Response) : fair (platform response).
Proof. intros n a b Hab. cbn. lia. Defined.

Lemma permission_gate_witness :
  resolve (bot helpers) (says guest lobby "!say hi") = Some ("say", sig_say, ["hi"]) ∧
  invocations (trace (linked (bot helpers))
                 (on_message (bot helpers) (says guest lobby "!say hi"))) = [] ∧
  sent_texts (trace (linked (bot helpers))
                (on_message (bot helpers) (says guest lobby "!say hi")))
  = [(lobby,
      "```" +:+ String "010"%char
        ("This command is not enabled for your group (Helpers)." +:+
         String "010"%char "```"))] ∧
  invocations (trace (linked (bot Cases.muted))
                 (on_message (bot Cases.muted) (says guest lobby "!say hi"))) = [] ∧
  sent_texts (trace (linked (bot Cases.muted))
                (on_message (bot Cases.muted) (says guest lobby "!say hi")))
  = [(lobby,
      "```" +:+ String "010"%char
        ("This command is disabled for your group (Muted)." +:+
         String "010"%char "```"))].
Proof.
  assert (Hres : resolve (bot helpers) (says guest lobby "!say hi")
                 = Some ("say", sig_say, ["hi"])) by (vm_compute; reflexivity).
  split; [exact Hres|].
  pose proof (permission_gate_rejects (bot helpers) (says guest lobby "!say hi")
                "say" sig_say ["hi"] (linked (bot helpers)) []
                (mkBinding [] {["message" := VMessage (says guest lobby "!say hi")]}
                           ["hi"] [])) as H.
  cbv zeta in H.
  assert (Hne : user_id (author (says guest lobby "!say hi"))
                ≠ owner_id (config (bot helpers))) by decided.
  assert (Hwl : command_whitelist (permissions (bot helpers)
                  (author (says guest lobby "!say hi"))) ≠ ∅) by decided.
  assert (Hout : "say" ∉ command_whitelist (permissions (bot helpers)
                  (author (says guest lobby "!say hi")))) by decided.
  destruct (H Hres Hne ltac:(vm_compute; reflexivity)) as [Hwhite _].
  destruct (Hwhite Hwl Hout) as (_ & Hinv & Hsent).
  split; [exact Hinv|]. split; [exact Hsent|].
  pose proof (permission_gate_rejects (bot Cases.muted) (says guest lobby "!say hi")
                "say" sig_say ["hi"] (linked (bot Cases.muted)) []
                (mkBinding [] {["message" := VMessage (says guest lobby "!say hi")]}
                           ["hi"] [])) as H'.
  cbv zeta in H'.
  assert (Hbl : command_blacklist (permissions (bot Cases.muted)
                  (author (says guest lobby "!say hi"))) ≠ ∅) by decided.
  assert (Hin : "say" ∈ command_blacklist (permissions (bot Cases.muted)
                  (author (says guest lobby "!say hi")))) by decided.
  destruct (H' ltac:(vm_compute; reflexivity) Hne ltac:(vm_compute; reflexivity))
    as [_ Hblack].
  destruct (Hblack ltac:(left; vm_compute; reflexivity) Hbl Hin) as (_ & Hinv' & Hsent').
  split; [exact Hinv' | exact Hsent'].
Defined.

(** With a whitelist that lacks the command, a missing argument is
    answered by the permissions failure, not by the usage text. *)
Lemma usage_counterexample :
  resolve (bot helpers) (says guest lobby "!setname") = Some ("setname", sig_setname, []) ∧
  positional sig_setname = [mkParam "name" None] ∧
  sent_texts (trace (linked (bot helpers))
                (on_message (bot helpers) (says guest lobby "!setname")))
  = [(lobby, code_block "This command is not enabled for your group (Helpers).")] ∧
  forall text,
    str_format (usage_docs (config (bot helpers)) "setname" sig_setname
                  (mkBinding [mkParam "name" None] ∅ [] ["name"])) "!" = Ok text ->
    head (sent_texts (trace (linked (bot helpers))
                        (on_message (bot helpers) (says guest lobby "!setname"))))
    ≠ Some (lobby, code_block text).
Proof.
  split; [vm_compute; reflexivity|]. split; [reflexivity|].
  split; [vm_compute; reflexivity|].
  intros text Hformat. vm_compute in Hformat. injection Hformat as <-.
  vm_compute. discriminate.
Qed.

Lemma usage_witness :
  resolve (bot everyone) (says guest lobby "!setname") = Some ("setname", sig_setname, []) ∧
  invocations (trace (linked (bot everyone))
                 (on_message (bot everyone) (says guest lobby "!setname"))) = [] ∧
  head (sent_texts (trace (linked (bot everyone))
                      (on_message (bot everyone) (says guest lobby "!setname"))))
  = Some (lobby, code_block setname_usage).
Proof.
  assert (Hres : resolve (bot everyone) (says guest lobby "!setname")
                 = Some ("setname", sig_setname, [])) by (vm_compute; reflexivity).
  split; [exact Hres|].
  pose proof (usage_for_missing_argument (bot everyone) (says guest lobby "!setname")
                "setname" sig_setname [] (linked (bot everyone)) []
                (mkBinding [mkParam "name" None] {["leftover_args" := VArgs]} [] [])
                O (mkParam "name" None) setname_usage) as H.
  cbv zeta in H.
  assert (Hnd : NoDup (param_name <$> handler_params sig_setname)) by decided.
  assert (Hperm : permitted (config (bot everyone)) (says guest lobby "!setname")
                    (permissions (bot everyone) (author (says guest lobby "!setname")))
                    "setname").
  { right. split; left; vm_compute; reflexivity. }
  exact (H Hres Hnd ltac:(vm_compute; reflexivity) eq_refl eq_refl
           ltac:(cbn; lia) Hperm ltac:(vm_compute; reflexivity)).
Defined.


Lemma leftover_args_witness :
  invocations (fst (exec (linked (bot everyone)) 1
                      (dispatch_body (settings true true) renaming everyone "setname"
                         sig_setname ["Ainnie"; "the"; "bot"])))
  = [("setname", {["leftover_args" := VList ["the"; "bot"]; "name" := VStr "Ainnie"]})] ∧
  ({["leftover_args" := VList ["the"; "bot"]; "name" := VStr "Ainnie"]}
     : gmap string value) !! "leftover_args" = Some (VList ["the"; "bot"]).
Proof.
  assert (Hrun :
    invocations (fst (exec (linked (bot everyone)) 1
                        (dispatch_body (settings true true) renaming everyone "setname"
                           sig_setname ["Ainnie"; "the"; "bot"])))
    = [("setname", {["leftover_args" := VList ["the"; "bot"]; "name" := VStr "Ainnie"]})])
    by (vm_compute; reflexivity).
  split; [exact Hrun|].
  assert (Hnd : NoDup (param_name <$> handler_params sig_setname)) by decided.
  pose proof (leftover_args_is_the_token_list (linked (bot everyone)) 1
                (settings true true) renaming everyone "setname" sig_setname
                ["Ainnie"; "the"; "bot"] Hnd eq_refl) as (_ & Hcall & _).
  apply (Hcall "setname"). rewrite Hrun. apply list_elem_of_singleton. reflexivity.
Defined.

(** A private message is answered although a channel binding is
    configured and the channel is not in it. *)
Lemma binding_counterexample :
  bound_channels (config bound_bot) ≠ ∅ ∧
  (channel_id (channel (says guest direct "!help")) ∉ bound_channels (config bound_bot)) ∧
  sent_texts (trace (linked bound_bot) (on_message bound_bot (says guest direct "!help")))
  = [(direct, "You cannot use this bot in private messages.")].
Proof.
  split; [decided|]. split; [decided|]. vm_compute. reflexivity.
Qed.

(** A text of the bot itself that does not start with the prefix reaches
    the non-command path before the test on the author. *)
Example own_message_answered :
  user_eqb (author (says self_user lobby "<@193778484869332993> hello")) (user self_bot)
  = true ∧
  sent_texts (trace (linked self_bot)
                (on_message self_bot (says self_user lobby "<@193778484869332993> hello")))
  = [(lobby, "<@193778484869332993> Hello.")].
Proof. split; vm_compute; reflexivity. Qed.

Lemma preconditions_witness :
  exec (linked (bot everyone)) O
       (on_message (bot everyone) (says bot_user lobby "!help")) = ([], Ok tt) ∧
  exec (linked (bot everyone)) O
       (on_message (bot everyone) (says guest lobby "hello")) = ([], Ok tt) ∧
  sent_texts (trace (linked self_bot) (on_message self_bot (says self_user lobby "!help")))
  = [] ∧
  exec (linked bound_bot) O (on_message bound_bot (says guest lobby "!help")) = ([], Ok tt).
Proof.
  pose proof (preconditions_in_order (bot everyone) (says bot_user lobby "!help")
                (linked (bot everyone)) BotAuthor ltac:(vm_compute; reflexivity)) as H1.
  pose proof (preconditions_in_order (bot everyone) (says guest lobby "hello")
                (linked (bot everyone)) NoPrefix ltac:(vm_compute; reflexivity))
    as (_ & _ & H2).
  pose proof (preconditions_in_order self_bot (says self_user lobby "!help")
                (linked self_bot) OwnMessage ltac:(vm_compute; reflexivity))
    as (H3 & _).
  pose proof (preconditions_in_order bound_bot (says guest lobby "!help")
                (linked bound_bot) UnboundChannel ltac:(vm_compute; reflexivity)) as H4.
  split; [exact H1|]. split; [exact (H2 ltac:(vm_compute; reflexivity))|].
  split; [exact H3 | exact H4].
Defined.

Lemma dice_roll_witness :
  fair (platform None) ∧
  (exists face, 1 <= face <= 6 ∧
     snd (exec (platform None) O
            (cmd_roll (settings true true) (says guest lobby "!roll 0")))
     = Ok (Some (mkResponse
                   ("I don't know what you wanted to roll. I rolled a 6-sided die instead"
                    +:+ String "010"%char
                          ("I rolled a **" +:+ Text.str_of_int face +:+ "**"))
                   false 20))) ∧
  (exists face, 1 <= face <= 1000 ∧
     snd (exec (platform None) O
            (cmd_roll (settings true true) (says guest lobby "!roll 2000")))
     = Ok (Some (mkResponse
                   ("Too many sides. I rolled a 1000-sided die instead"
                    +:+ String "010"%char
                          ("I rolled a **" +:+ Text.str_of_int face +:+ "**"))
                   false 20))) ∧
  (exists face, 1 <= face <= 6 ∧
     snd (exec (platform None) O
            (cmd_roll (settings true true) (says guest lobby "!roll twenty")))
     = Ok (Some (mkResponse
                   ("I don't know what you wanted to roll. I rolled a 6-sided die instead"
                    +:+ String "010"%char
                          ("I rolled a **" +:+ Text.str_of_int face +:+ "**"))
                   false 20))) ∧
  (exists face, 1 <= face <= 20 ∧
     snd (exec (platform None) O
            (cmd_roll (settings true true) (says guest lobby "!roll 20")))
     = Ok (Some (mkResponse ("I rolled a **" +:+ Text.str_of_int face +:+ "**")
                   false 20))).
Proof.
  split; [apply platform_fair|].
  split; [exact (proj1 (dice_roll_cases (settings true true)
                          (says guest lobby "!roll 0") (platform None) O
                          (platform_fair None)) eq_refl)|].
  split; [exact (proj1 (proj2 (dice_roll_cases (settings true true)
                          (says guest lobby "!roll 2000") (platform None) O
                          (platform_fair None))) eq_refl)|].
  split; [exact (proj1 (proj2 (proj2 (dice_roll_cases (settings true true)
                          (says guest lobby "!roll twenty") (platform None) O
                          (platform_fair None)))) eq_refl
                   ltac:(vm_compute; reflexivity))|].
  exact (proj2 (proj2 (proj2 (dice_roll_cases (settings true true)
                          (says guest lobby "!roll 20") (platform None) O
                          (platform_fair None)))) eq_refl).
Defined.

(** C5.  The message [!ROLL 20] is dispatched to the roll command with
    the token [20]: the router folds the case of the keyword.  The handler
    reads the number from the text of the message, from which it removes
    the keyword in small letters only; it finds no number, draws from the
    six-sided die, whatever the environment, and puts the notice of the
    fallback in front, where [!roll 20] draws from the twenty-sided die and
    gives no notice. *)
Theorem roll_keyword_in_capitals :
  resolve (bot everyone) Cases.shouting = Some ("roll", sig_roll, ["20"]) ∧
  resolve (bot everyone) rolling = Some ("roll", sig_roll, ["20"]) ∧
  (forall (w : Oracle) (n : nat),
     snd (exec w n (cmd_roll (settings true true) Cases.shouting))
     = Ok (Some (mkResponse
                   ("I don't know what you wanted to roll. I rolled a 6-sided die instead"
                    +:+ String "010"%char
                          ("I rolled a **" +:+
                           Text.str_of_int (w n (E_randint 1 6)) +:+ "**"))
                   false 20))) ∧
  (forall (w : Oracle) (n : nat),
     snd (exec w n (cmd_roll (settings true true) rolling))
     = Ok (Some (mkResponse
                   ("I rolled a **" +:+ Text.str_of_int (w n (E_randint 1 20)) +:+ "**")
                   false 20))) ∧
  sent_texts (trace (linked (bot everyone)) (on_message (bot everyone) Cases.shouting))
  = [(lobby,
      "I don't know what you wanted to roll. I rolled a 6-sided die instead"
      +:+ String "010"%char "I rolled a **1**")] ∧
  sent_texts (trace (linked (bot everyone)) (on_message (bot everyone) rolling))
  = [(lobby, "I rolled a **1**")].
Proof.
  split; [vm_compute; reflexivity|]. split; [vm_compute; reflexivity|].
  split; [|split; [|split; vm_compute; reflexivity]].
  - intros w n.
    assert (Hnone : Text.int (argument_text (settings true true) "roll" Cases.shouting)
                    = None) by (vm_compute; reflexivity).
    unfold cmd_roll. rewrite Hnone. reflexivity.
  - intros w n.
    assert (Hsome : Text.int (argument_text (settings true true) "roll" rolling)
                    = Some 20) by (vm_compute; reflexivity).
    unfold cmd_roll. rewrite Hsome. reflexivity.
Qed.

Lemma reply_deletion_witness :
  scheduled (posted 2 lobby "I rolled a **1**")
    (trace (linked (bot everyone)) (on_message (bot everyone) rolling)) = [Some 20] ∧
  scheduled (posted 2 lobby "I rolled a **1**")
    (trace (linked quiet_bot) (on_message quiet_bot rolling)) = [].
Proof.
  assert (Hne : posted 2 lobby "I rolled a **1**" ≠ rolling) by decided.
  split.
  - pose proof (reply_deletion_follows_setting (linked (bot everyone)) (bot everyone)
                  rolling "roll" sig_roll ["20"] []
                  (mkBinding [] {["message" := VMessage rolling]} ["20"] [])
                  rolled_one (posted 2 lobby "I rolled a **1**")) as H.
    cbv zeta in H.
    exact (proj1 (H ltac:(vm_compute; reflexivity) ltac:(vm_compute; reflexivity)
                    ltac:(right; split; left; vm_compute; reflexivity) eq_refl
                    ltac:(vm_compute; reflexivity) ltac:(cbn; lia)
                    ltac:(vm_compute; reflexivity) Hne) eq_refl).
  - pose proof (reply_deletion_follows_setting (linked quiet_bot) quiet_bot
                  rolling "roll" sig_roll ["20"] []
                  (mkBinding [] {["message" := VMessage rolling]} ["20"] [])
                  rolled_one (posted 2 lobby "I rolled a **1**")) as H.
    cbv zeta in H.
    exact (proj2 (H ltac:(vm_compute; reflexivity) ltac:(vm_compute; reflexivity)
                    ltac:(right; split; left; vm_compute; reflexivity) eq_refl
                    ltac:(vm_compute; reflexivity) ltac:(cbn; lia)
                    ltac:(vm_compute; reflexivity) Hne) eq_refl).
Defined.

Lemma invoking_message_witness :
  scheduled rolling (trace (linked quiet_bot) (on_message quiet_bot rolling)) = [Some 0].
Proof.
  assert (Hne : posted 2 lobby "I rolled a **1**" ≠ rolling) by decided.
  pose proof (invoking_message_deleted_without_delay (linked quiet_bot) quiet_bot
                rolling "roll" sig_roll ["20"] []
                (mkBinding [] {["message" := VMessage rolling]} ["20"] [])
                rolled_one (posted 2 lobby "I rolled a **1**")) as H.
  cbv zeta in H.
  exact (proj2 (H ltac:(vm_compute; reflexivity) ltac:(vm_compute; reflexivity)
                  ltac:(right; split; left; vm_compute; reflexivity) eq_refl
                  ltac:(vm_compute; reflexivity) ltac:(vm_compute; reflexivity)
                  Hne eq_refl) eq_refl).
Defined.

(** The same on a whole run of the router, the handler being run. *)
Example roll_run_with_deletion_off :
  let self := quiet_bot in
  sent_texts (trace (linked self) (on_message self rolling))
  = [(lobby, "I rolled a **1**")] ∧
  scheduled rolling (trace (linked self) (on_message self rolling)) = [Some 0] ∧
  scheduled (posted 2 lobby "I rolled a **1**")
    (trace (linked self) (on_message self rolling)) = [].
Proof. repeat split; vm_compute; reflexivity. Qed.

Example roll_run_with_deletion_on :
  let self := bot everyone in
  scheduled rolling (trace (linked self) (on_message self rolling)) = [Some 20] ∧
  scheduled (posted 2 lobby "I rolled a **1**")
    (trace (linked self) (on_message self rolling)) = [Some 20].
Proof. repeat split; vm_compute; reflexivity. Qed.

(** C7.  On the message [!xkcd abc] the comic handler raises ValueError
    instead of returning a reply: the router logs the trace and the user
    is sent nothing.  The roll and the timer handlers answer the same
    token with a reply. *)
Theorem xkcd_malformed_number_escapes :
  cmd_xkcd (settings true true) (says guest lobby "!xkcd abc")
  = Throw (Builtin ValueError) ∧
  returned (trace (linked (bot everyone))
              (on_message (bot everyone) (says guest lobby "!xkcd abc"))) = [] ∧
  sent_texts (trace (linked (bot everyone))
                (on_message (bot everyone) (says guest lobby "!xkcd abc"))) = [] ∧
  outcome (platform None) (cmd_roll (settings true true) (says guest lobby "!roll abc"))
  = Ok (Some (mkResponse (roll_fallback_notice +:+ rolled 1) false 20)) ∧
  outcome (platform None) (cmd_timer (settings true true) (says guest lobby "!timer abc"))
  = Ok (Some (mkResponse
                "That's not what I expected. The format is `!timer [seconds] [optional reminder message].`"
                false 20)).
Proof. repeat split; vm_compute; reflexivity. Qed.



Example split_example :
  Text.split "  !setname  Ainnie the bot " = ["!setname"; "Ainnie"; "the"; "bot"].
Proof. reflexivity. Qed.

Example int_examples :
  Text.int " 20" = Some 20 ∧ Text.int "-5" = Some (-5) ∧ Text.int "+7" = Some 7 ∧
  Text.int "abc" = None ∧ Text.int EmptyString = None ∧ Text.int "2.5" = None ∧
  Text.int "- 5" = None.
Proof. repeat split; reflexivity. Qed.

(** A signed number is no digit string and yet an integer: the comic
    handler reaches its last branch with it. *)
Example xkcd_signed_number :
  cmd_xkcd (settings true true) (says guest lobby "!xkcd +5")
  = Ret (Some (mkResponse "You have to put a number!" false 20)).
Proof. vm_compute. reflexivity. Qed.

Example help_listing :
  help_commands (bot everyone)
  = ["!8ball"; "!cat"; "!choice"; "!clean"; "!coinflip"; "!dot"; "!game"; "!honk";
     "!kiyu"; "!listids"; "!penguin"; "!perms"; "!restart"; "!roll"; "!say";
     "!setavatar"; "!setname"; "!setnick"; "!shutdown"; "!timer"; "!tsun"; "!urban";
     "!xkcd"].
Proof. vm_compute. reflexivity. Qed.

End Run.


(** * More of the router *)

Section Router_runs.
Context {L : Library}.

Lemma exec_called (w : Oracle) (k : nat) (cfg : Config) (message : Message)
    (command : string) (kw : gmap string value) :
  exec w k (response <- call (E_handler command kw) (fun x => x) ;;
            send_response cfg message response)
  = match w k (E_handler command kw) with
    | Ok response =>
        let '(tr, r) := exec w (S k) (send_response cfg message response) in
        (Ev (E_handler command kw) (Ok response) :: tr, r)
    | Err e => ([Ev (E_handler command kw) (Err e)], Err e)
    end.
Proof.
  unfold call. cbn [bind exec].
  destruct (w k (E_handler command kw)) as [response | e]; reflexivity.
Qed.

(** The run of the try statement when the handler raises. *)
Lemma dispatch_called_err (w : Oracle) (self : MusicBot) (message : Message)
    (command : string) (handler : Handler) (tokens : list string)
    (tr : list Event) (st : Binding) (e : exn) :
  reaches_handler w self message command handler tokens tr st ->
  w (1 + length tr)%nat (E_handler command (kwargs_at_call st)) = Err e ->
  exec w 1 (dispatch (config self) message (permissions self (author message))
              command handler tokens)
  = let '(tr', r) := exec w (2 + length tr)%nat
                       (dispatch_except (config self) message e) in
    (tr ++ Ev (E_handler command (kwargs_at_call st)) (Err e) :: tr', r).
Proof.
  intros (Hres & Hbind & Hperm & Hparams) Hcall.
  pose proof (dispatch_body_passes w 1 _ message _ command handler tokens tr st
                Hbind (gate_permitted _ _ _ _ Hperm)) as Hbody.
  cbn zeta in Hbody. rewrite Hparams, exec_called in Hbody.
  fold (kwargs_at_call st) in Hbody. rewrite Hcall in Hbody.
  rewrite exec_dispatch, Hbody.
  replace (1 + length (tr ++ [Ev (E_handler command (kwargs_at_call st)) (Err e)]))%nat
    with (2 + length tr)%nat by (rewrite length_app; cbn; lia).
  destruct (exec w (2 + length tr) _) as [tr' r]. by rewrite <- app_assoc.
Qed.

(** The run of the try statement when the handler returns. *)
Lemma dispatch_called_ok (w : Oracle) (self : MusicBot) (message : Message)
    (command : string) (handler : Handler) (tokens : list string)
    (tr : list Event) (st : Binding) (response : option Response) :
  reaches_handler w self message command handler tokens tr st ->
  w (1 + length tr)%nat (E_handler command (kwargs_at_call st)) = Ok response ->
  exec w 1 (dispatch (config self) message (permissions self (author message))
              command handler tokens)
  = match exec w (2 + length tr)%nat
            (send_response (config self) message response) with
    | (tr', Ok a) =>
        (tr ++ Ev (E_handler command (kwargs_at_call st)) (Ok response) :: tr', Ok a)
    | (tr', Err e) =>
        let '(tr'', r) := exec w (2 + length tr + length tr')%nat
                            (dispatch_except (config self) message e) in
        (tr ++ Ev (E_handler command (kwargs_at_call st)) (Ok response) :: tr' ++ tr'', r)
    end.
Proof.
  intros (Hres & Hbind & Hperm & Hparams) Hcall.
  pose proof (dispatch_body_passes w 1 _ message _ command handler tokens tr st
                Hbind (gate_permitted _ _ _ _ Hperm)) as Hbody.
  cbn zeta in Hbody. rewrite Hparams, exec_called in Hbody.
  fold (kwargs_at_call st) in Hbody. rewrite Hcall in Hbody.
  change (S (1 + length tr)) with (2 + length tr)%nat in Hbody.
  rewrite exec_dispatch, Hbody.
  destruct (exec w (2 + length tr) (send_response _ _ _)) as [tr' [a | e]];
    [reflexivity|].
  replace (1 + length (tr ++ Ev (E_handler command (kwargs_at_call st)) (Ok response) :: tr'))%nat
    with (2 + length tr + length tr')%nat by (rewrite length_app; cbn; lia).
  destruct (exec w (2 + length tr + length tr') _) as [tr'' r].
  by rewrite <- app_assoc.
Qed.

End Router_runs.

Section Router_properties.
Context {L : Library}.

Lemma cleverbot_path_handler_free (message : Message) (message_content : string) :
  handler_free (cleverbot_path message message_content).
Proof.
  unfold cleverbot_path. destruct (Text.contains bot_mention _); [|done].
  unfold call. cbn [bind handler_free]. split; [done|].
  intros [text | e]; cbn [lift bind]; [|done].
  apply handler_free_bind; [apply safe_send_message_handler_free | done].
Qed.

(** Either the router never comes to a handler, or the command resolves. *)
Lemma on_message_cases (self : MusicBot) (message : Message) :
  handler_free (on_message self message) ∨
  exists command handler tokens,
    resolve self message = Some (command, handler, tokens).
Proof.
  unfold resolve, on_message.
  destruct (user_bot (author message)); [by left|].
  destruct (negb (Text.startswith _ _)).
  { left. apply cleverbot_path_handler_free. }
  destruct (user_eqb _ _); [by left|].
  destruct (_ && _ && negb (is_private _)); [by left|].
  destruct (Text.split _) as [| first rest]; [by left|].
  destruct (getattr self _) as [h |]; [|by left].
  destruct (is_private (channel message) && _).
  - left. apply handler_free_bind; [|done]. unfold call. cbn [handler_free].
    split; [done|]. by intros [msg | e].
  - right. by eexists _, _, _.
Qed.

Lemma dispatch_body_invocations (w : Oracle) (n : nat) (cfg : Config)
    (message : Message) (g : PermissionGroup) (command : string)
    (handler : Handler) (tokens : list string) :
  (length (invocations (fst (exec w n (dispatch_body cfg message g command
                                         handler tokens)))) <= 1)%nat.
Proof.
  unfold dispatch_body. rewrite exec_bind.
  pose proof (handler_free_trace w n _
                (bind_context_handler_free message g
                   (mkBinding (handler_params handler) ∅ tokens []))) as [Hctx _].
  destruct (exec w n (bind_context _ _ _)) as [tr [st | e]]; cbn [fst] in Hctx.
  2: { cbn [fst]. rewrite Hctx. cbn. lia. }
  cbv beta iota zeta.
  destruct (gate_cases cfg message g command) as [Hgate | [e Hgate]]; rewrite Hgate.
  2: { cbn [bind exec fst]. rewrite app_nil_r, Hctx. cbn. lia. }
  cbn [bind].
  destruct (params (bind_positional (params st) st)) as [| q rest].
  - pose proof (exec_invoke w (n + length tr) cfg message command
                  (deref (args (bind_positional (params st) st))
                         (handler_kwargs (bind_positional (params st) st)))) as Hcall.
    destruct (exec w (n + length tr) _) as [tr' r]. cbn [fst] in Hcall |- *.
    unfold invocations in *. rewrite omap_app, Hctx, Hcall. cbn. lia.
  - pose proof (handler_free_trace w (n + length tr) _
                  (send_usage_handler_free cfg message command handler
                     (bind_positional (params st) st))) as [Hfree _].
    destruct (exec w (n + length tr) _) as [tr' r]. cbn [fst] in Hfree |- *.
    unfold invocations in *. rewrite omap_app, Hctx, Hfree. cbn. lia.
Qed.

(** X3.  Whatever the message, the bot and the environment, a run of the
    router calls at most one handler. *)
Theorem at_most_one_invocation (w : Oracle) (self : MusicBot) (message : Message) :
  (length (invocations (trace w (on_message self message))) <= 1)%nat.
Proof.
  destruct (on_message_cases self message) as [Hfree | (c & h & t & Hres)].
  - destruct (handler_free_trace w O _ Hfree) as [Hinv _].
    unfold trace. rewrite Hinv. cbn. lia.
  - destruct (exec_on_message_resolve w _ _ _ _ _ Hres) as (ev & Hev & Hrun).
    destruct Hev as (Hev_inv & _).
    unfold trace. rewrite Hrun. cbn [fst]. rewrite exec_dispatch.
    pose proof (dispatch_body_invocations w 1 (config self) message
                  (permissions self (author message)) c h t) as Hbody.
    destruct (exec w 1 (dispatch_body _ _ _ _ _ _)) as [tr [a | e]];
      cbn [fst] in Hbody.
    + cbv beta iota. cbn [fst].
      change (ev :: tr) with ([ev] ++ tr). unfold invocations in *.
      by rewrite omap_app, Hev_inv.
    + cbv beta iota.
      pose proof (handler_free_trace w (1 + length tr) _
                    (dispatch_except_handler_free (config self) message e))
        as [Hex _].
      destruct (exec w (1 + length tr) _) as [tr' r]. cbn [fst] in Hex |- *.
      change (ev :: tr ++ tr') with ([ev] ++ tr ++ tr'). unfold invocations in *.
      by rewrite !omap_app, Hev_inv, Hex, app_nil_r.
Qed.

(** X1.  A text with the command prefix whose keyword names no [cmd_]
    attribute is ignored: the run has no event and ends without error. *)
Theorem unknown_command_ignored (w : Oracle) (self : MusicBot) (message : Message)
    (first : string) (tokens : list string) :
  precondition_exit self message = None ->
  Text.split (Text.strip (content message)) = first :: tokens ->
  getattr self ("cmd_" +:+ Text.strip (Text.lower
                  (Text.drop (String.length (command_prefix (config self))) first)))
  = None ->
  exec w O (on_message self message) = ([], Ok tt).
Proof.
  unfold precondition_exit, on_message. intros Hexit Hsplit Hget.
  destruct (user_bot (author message)); [done|].
  destruct (negb (Text.startswith _ _)); [done|].
  destruct (user_eqb _ _); [done|].
  destruct (_ && _ && negb (is_private _)); [done|].
  by rewrite Hsplit, Hget.
Qed.

(** X2.  In a class without a [joinserver] command, as this one, every
    private message that names a command, the owner's too, is answered by
    the refusal and by nothing else: no handler is called, no deletion is
    scheduled. *)
Theorem private_message_refused (w : Oracle) (self : MusicBot) (message : Message)
    (first : string) (tokens : list string) (handler : Handler) :
  getattr self "cmd_joinserver" = None ->
  precondition_exit self message = None ->
  is_private (channel message) = true ->
  Text.split (Text.strip (content message)) = first :: tokens ->
  getattr self ("cmd_" +:+ Text.strip (Text.lower
                  (Text.drop (String.length (command_prefix (config self))) first)))
  = Some handler ->
  sent_texts (trace w (on_message self message))
  = [(channel message, "You cannot use this bot in private messages.")] ∧
  invocations (trace w (on_message self message)) = [] ∧
  (forall m, scheduled m (trace w (on_message self message)) = []) ∧
  length (trace w (on_message self message)) = 1%nat.
Proof.
  unfold precondition_exit, on_message, trace. intros Hjoin Hexit Hprivate Hsplit Hget.
  destruct (user_bot (author message)); [done|].
  destruct (negb (Text.startswith _ _)); [done|].
  destruct (user_eqb _ _); [done|].
  destruct (_ && _ && negb (is_private _)); [done|].
  rewrite Hsplit, Hget, Hprivate.
  set (command := Text.strip (Text.lower (Text.drop _ first))) in *.
  assert (Hne : bool_decide (command = "joinserver") = false).
  { apply bool_decide_eq_false. intros Heq. rewrite Heq in Hget.
    change (getattr self "cmd_joinserver" = Some handler) in Hget. congruence. }
  rewrite Hne, andb_false_r. cbn [andb negb]. unfold call. cbn [bind exec].
  destruct (w O (E_send_message (channel message) _)) as [msg | e];
    repeat split; reflexivity.
Qed.

End Router_properties.

Section Reply_properties.
Context {L : Library}.

Lemma on_message_called (w : Oracle) (self : MusicBot) (message : Message)
    (command : string) (handler : Handler) (tokens : list string)
    (tr : list Event) (st : Binding) :
  reaches_handler w self message command handler tokens tr st ->
  exists ev,
    quiet [ev] ∧ quiet tr ∧
    exec w O (on_message self message)
    = (ev :: fst (exec w 1 (dispatch (config self) message
                              (permissions self (author message))
                              command handler tokens)),
       snd (exec w 1 (dispatch (config self) message
                        (permissions self (author message))
                        command handler tokens))).
Proof.
  intros (Hres & Hbind & _ & _).
  destruct (bind_context_ok _ _ _ _ _ _ _ Hbind) as (_ & _ & _ & _ & _ & Hquiet).
  destruct (exec_on_message_resolve w _ _ _ _ _ Hres) as (ev & Hev & Hrun).
  by exists ev.
Qed.

Lemma behind_the_call (ev : Event) (tr : list Event) (command : string)
    (kw : gmap string value) (ans : answer (E_handler command kw))
    (rest : list Event) :
  quiet [ev] -> quiet tr ->
  sent_texts (ev :: tr ++ Ev (E_handler command kw) ans :: rest) = sent_texts rest ∧
  (forall m, scheduled m (ev :: tr ++ Ev (E_handler command kw) ans :: rest)
             = scheduled m rest) ∧
  invocations (ev :: tr ++ Ev (E_handler command kw) ans :: rest)
  = (command, kw) :: invocations rest.
Proof.
  intros (Hev_inv & _ & Hev_sent & _ & Hev_sched) (Hinv & _ & Hsent & _ & Hsched).
  change (ev :: tr ++ Ev (E_handler command kw) ans :: rest)
    with ([ev] ++ tr ++ [Ev (E_handler command kw) ans] ++ rest).
  unfold sent_texts, scheduled, invocations in *.
  split; [|split].
  - by rewrite !omap_app, Hev_sent, Hsent.
  - intros m. by rewrite !omap_app, (Hev_sched m), (Hsched m).
  - by rewrite !omap_app, Hev_inv, Hinv.
Qed.

(** X4.  The owner is not held back by the lists of the permission group:
    when the author is the owner, the command resolves, binding completes
    and no parameter is left, the handler is called, once, with the bound
    keyword arguments. *)
Theorem owner_passes_the_gate (w : Oracle) (self : MusicBot) (message : Message)
    (command : string) (handler : Handler) (tokens : list string)
    (tr : list Event) (st : Binding) :
  user_id (author message) = owner_id (config self) ->
  resolve self message = Some (command, handler, tokens) ->
  exec w 1 (bind_context message (permissions self (author message))
              (mkBinding (handler_params handler) ∅ tokens [])) = (tr, Ok st) ->
  params (bind_positional (params st) st) = [] ->
  invocations (trace w (on_message self message)) = [(command, kwargs_at_call st)].
Proof.
  intros Howner Hres Hbind Hparams.
  assert (Hreach : reaches_handler w self message command handler tokens tr st).
  { split; [done|]. split; [done|]. split; [by left | done]. }
  destruct (on_message_called _ _ _ _ _ _ _ _ Hreach) as (ev & Hev & Htr & Hrun).
  unfold trace. rewrite Hrun. cbn [fst].
  destruct (w (1 + length tr)%nat (E_handler command (kwargs_at_call st)))
    as [response | e] eqn:Hcall.
  - rewrite (dispatch_called_ok _ _ _ _ _ _ _ _ _ Hreach Hcall).
    pose proof (handler_free_trace w (2 + length tr) _
                  (send_response_handler_free (config self) message response))
      as [Hfree _].
    destruct (exec w (2 + length tr) (send_response _ _ _)) as [tr' [a | e]];
      cbn [fst] in Hfree |- *.
    + destruct (behind_the_call ev tr command (kwargs_at_call st) (Ok response) tr'
                  Hev Htr) as (_ & _ & ->). by rewrite Hfree.
    + pose proof (handler_free_trace w (2 + length tr + length tr') _
                    (dispatch_except_handler_free (config self) message e))
        as [Hex _].
      destruct (exec w (2 + length tr + length tr') _) as [tr'' r].
      cbn [fst] in Hex |- *.
      destruct (behind_the_call ev tr command (kwargs_at_call st) (Ok response)
                  (tr' ++ tr'') Hev Htr) as (_ & _ & ->).
      unfold invocations in *. by rewrite omap_app, Hfree, Hex.
  - rewrite (dispatch_called_err _ _ _ _ _ _ _ _ _ Hreach Hcall).
    pose proof (handler_free_trace w (2 + length tr) _
                  (dispatch_except_handler_free (config self) message e))
      as [Hex _].
    destruct (exec w (2 + length tr) _) as [tr' r]. cbn [fst] in Hex |- *.
    destruct (behind_the_call ev tr command (kwargs_at_call st) (Err e) tr'
                Hev Htr) as (_ & _ & ->). by rewrite Hex.
Qed.

(** X5.  A restart or terminate signal raised by the handler leaves the
    router as it is: the run ends with that signal, and nothing is sent or
    scheduled. *)
Theorem signal_leaves_the_router (w : Oracle) (self : MusicBot) (message : Message)
    (command : string) (handler : Handler) (tokens : list string)
    (tr : list Event) (st : Binding) (cls : signal_class) :
  reaches_handler w self message command handler tokens tr st ->
  w (1 + length tr)%nat (E_handler command (kwargs_at_call st)) = Err (Signal cls) ->
  outcome w (on_message self message) = Err (Signal cls) ∧
  sent_texts (trace w (on_message self message)) = [] ∧
  (forall m, scheduled m (trace w (on_message self message)) = []).
Proof.
  intros Hreach Hcall.
  destruct (on_message_called _ _ _ _ _ _ _ _ Hreach) as (ev & Hev & Htr & Hrun).
  unfold trace, outcome. rewrite Hrun. cbn [fst snd].
  rewrite (dispatch_called_err _ _ _ _ _ _ _ _ _ Hreach Hcall).
  cbn [dispatch_except exec fst snd].
  destruct (behind_the_call ev tr command (kwargs_at_call st) (Err (Signal cls)) []
              Hev Htr) as (-> & Hsched & _).
  split; [done|]. split; [done|]. intros m. by rewrite Hsched.
Qed.



End Reply_properties.

Section Delivery_properties.
Context {L : Library}.

Lemma scheduled_print (m : Message) (text : string) (a : answer (E_print text))
    (tr : list Event) :
  scheduled m (Ev (E_print text) a :: tr) = scheduled m tr.
Proof. reflexivity. Qed.

Lemma sent_texts_print (text : string) (a : answer (E_print text)) (tr : list Event) :
  sent_texts (Ev (E_print text) a :: tr) = sent_texts tr.
Proof. reflexivity. Qed.

(** X11.  A send that the platform refuses as forbidden or not found does
    not raise: the call returns no message, with one line of warning unless
    it was asked to be quiet; any other error leaves the call as it is.  In
    no case is a deletion scheduled, not even that of the message given in
    [also_delete]. *)
Theorem refused_send_is_swallowed (w : Oracle) (n : nat) (dest : Channel)
    (text : string) (expire_in : option Z) (also_delete : option Message)
    (quiet_ : bool) (e : exn) :
  w n (E_send_message dest text) = Err e ->
  match e with
  | Builtin Forbidden | Builtin NotFound =>
      snd (exec w n (safe_send_message dest text expire_in also_delete quiet_))
      = Ok None ∧
      length (printed (fst (exec w n (safe_send_message dest text expire_in
                                        also_delete quiet_))))
      = (if quiet_ then 0 else 1)%nat
  | _ =>
      snd (exec w n (safe_send_message dest text expire_in also_delete quiet_))
      = Err e
  end ∧
  forall m,
    scheduled m (fst (exec w n (safe_send_message dest text expire_in
                                  also_delete quiet_))) = [].
Proof.
  intros Hsend. unfold safe_send_message. cbn [exec]. rewrite Hsend.
  destruct e as [c t x | c | []]; destruct quiet_; repeat split.
Qed.

(** X9.  A handler that returns no reply: the router sends nothing, and
    with no send the invoking message is not scheduled for deletion,
    whatever the settings. *)
Theorem no_reply_nothing_sent (w : Oracle) (self : MusicBot) (message : Message)
    (command : string) (handler : Handler) (tokens : list string)
    (tr : list Event) (st : Binding) :
  reaches_handler w self message command handler tokens tr st ->
  w (1 + length tr)%nat (E_handler command (kwargs_at_call st)) = Ok None ->
  outcome w (on_message self message) = Ok tt ∧
  sent_texts (trace w (on_message self message)) = [] ∧
  (forall m, scheduled m (trace w (on_message self message)) = []).
Proof.
  intros Hreach Hcall.
  destruct (on_message_called _ _ _ _ _ _ _ _ Hreach) as (ev & Hev & Htr & Hrun).
  unfold trace, outcome. rewrite Hrun. cbn [fst snd].
  rewrite (dispatch_called_ok _ _ _ _ _ _ _ _ _ Hreach Hcall).
  cbn [send_response exec fst snd].
  destruct (behind_the_call ev tr command (kwargs_at_call st) (Ok None) []
              Hev Htr) as (-> & Hsched & _).
  split; [done|]. split; [done|]. intros m. by rewrite Hsched.
Qed.


(** X12.  A reply with the delete delay zero stays: once the platform has
    created the message for it, the router schedules no deletion of that
    message, be the delete-messages setting on or off. *)
Theorem zero_delay_reply_stays (w : Oracle) (self : MusicBot) (message : Message)
    (command : string) (handler : Handler) (tokens : list string)
    (tr : list Event) (st : Binding) (r : Response) (sent : Message) :
  reaches_handler w self message command handler tokens tr st ->
  w (1 + length tr)%nat (E_handler command (kwargs_at_call st)) = Ok (Some r) ->
  delete_after r = 0 ->
  w (2 + length tr)%nat (E_send_message (channel message) (response_text message r))
  = Ok sent ->
  sent ≠ message ->
  scheduled sent (trace w (on_message self message)) = [].
Proof.
  intros (Hres & Hbind & Hperm & Hparams) Hcall Hzero Hsent Hne.
  destruct (send_response_scheduled w (2 + length tr) (config self) message r
              sent sent Hsent) as [Hsched Hdone].
  destruct (on_message_delivers w self message command handler tokens tr st
              (Some r) sent Hres Hbind Hperm Hparams Hcall Hdone) as [-> _].
  rewrite Hsched, Hzero.
  rewrite (decide_False (P := message = sent)) by done.
  by destruct (delete_messages (config self)), (delete_invoking (config self)).
Qed.

Lemma failure_run (w : Oracle) (self : MusicBot) (message : Message)
    (command : string) (handler : Handler) (tokens : list string)
    (tr : list Event) (st : Binding) (cls : failure_class) (text : string)
    (expire : Z) :
  reaches_handler w self message command handler tokens tr st ->
  w (1 + length tr)%nat (E_handler command (kwargs_at_call st))
  = Err (Failure cls text expire) ->
  let send :=
    safe_send_message (channel message) (code_block text)
      (if delete_messages (config self) then Some expire else None)
      (if delete_invoking (config self) then Some message else None) false in
  sent_texts (trace w (on_message self message))
  = sent_texts (fst (exec w (3 + length tr) send)) ∧
  forall m, scheduled m (trace w (on_message self message))
            = scheduled m (fst (exec w (3 + length tr) send)).
Proof.
  intros Hreach Hcall send.
  destruct (on_message_called _ _ _ _ _ _ _ _ Hreach) as (ev & Hev & Htr & Hrun).
  unfold trace. rewrite Hrun. cbn [fst].
  rewrite (dispatch_called_err _ _ _ _ _ _ _ _ _ Hreach Hcall).
  unfold dispatch_except. rewrite exec_perform_then.
  change (S (2 + length tr)) with (3 + length tr)%nat.
  subst send.
  pose proof (exec_then_ret w (3 + length tr)
                (safe_send_message (channel message) (code_block text)
                   (if delete_messages (config self) then Some expire else None)
                   (if delete_invoking (config self) then Some message else None)
                   false) tt) as Hthen.
  rewrite <- Hthen. clear Hthen.
  destruct (exec w (3 + length tr) _) as [tr' r]. cbn [fst].
  match goal with
  | |- sent_texts (ev :: tr ++ ?h :: ?p :: tr') = _ ∧ _ =>
      destruct (behind_the_call ev tr command (kwargs_at_call st)
                  (Err (Failure cls text expire)) (p :: tr') Hev Htr)
        as (-> & Hbehind & _)
  end.
  rewrite sent_texts_print. split; [reflexivity|].
  intros m. by rewrite Hbehind, scheduled_print.
Qed.

(** X7.  An application failure raised by the handler is shown to the
    user, and nothing else is sent: its message in a code block.  Once the
    platform has created the message for it, that message is scheduled for
    deletion after the [expire_in] of the failure when the delete-messages
    setting is on and that value is not zero, and not at all otherwise; with
    the delete-invoking setting on the invoking message is scheduled once,
    with the [expire_in] of the failure or, with delete-messages off, with
    no delay value at all. *)
Theorem handler_failure_reported (w : Oracle) (self : MusicBot) (message : Message)
    (command : string) (handler : Handler) (tokens : list string)
    (tr : list Event) (st : Binding) (cls : failure_class) (text : string)
    (expire : Z) :
  reaches_handler w self message command handler tokens tr st ->
  w (1 + length tr)%nat (E_handler command (kwargs_at_call st))
  = Err (Failure cls text expire) ->
  sent_texts (trace w (on_message self message))
  = [(channel message, code_block text)] ∧
  forall sent,
    w (3 + length tr)%nat (E_send_message (channel message) (code_block text))
    = Ok sent ->
    sent ≠ message ->
    scheduled sent (trace w (on_message self message))
    = (if delete_messages (config self) && negb (expire =? 0)
       then [Some expire] else []) ∧
    scheduled message (trace w (on_message self message))
    = (if delete_invoking (config self)
       then [if delete_messages (config self) then Some expire else None]
       else []).
Proof.
  intros Hreach Hcall.
  destruct (failure_run w self message command handler tokens tr st cls text expire
              Hreach Hcall) as [-> Hsched].
  split; [apply safe_send_message_sent|].
  intros sent Hok Hne. rewrite !Hsched.
  rewrite (safe_send_message_scheduled w _ _ _ _ _ _ sent sent Hok),
    (safe_send_message_scheduled w _ _ _ _ _ _ sent message Hok).
  rewrite (decide_True (P := sent = sent)) by done.
  rewrite (decide_False (P := sent = message)) by done.
  destruct (delete_messages (config self)), (delete_invoking (config self));
    cbn [truthy andb];
    rewrite ?(decide_True (P := message = message)) by done;
    rewrite ?(decide_False (P := message = sent)) by done;
    destruct (negb (expire =? 0)); done.
Qed.

End Delivery_properties.

Section Usage_properties.
Context {L : Library}.

Lemma send_usage_run (w : Oracle) (n : nat) (cfg : Config) (message : Message)
    (command : string) (handler : Handler) (st : Binding) (text : string)
    (sent : Message) :
  str_format (usage_docs cfg command handler st) (command_prefix cfg) = Ok text ->
  w n (E_send_message (channel message) (code_block text)) = Ok sent ->
  snd (exec w n (send_usage cfg message command handler st)) = Ok tt ∧
  forall m, scheduled m (fst (exec w n (send_usage cfg message command handler st)))
            = if decide (sent = m) then [Some 60] else [].
Proof.
  intros Hformat Hsent. unfold send_usage. rewrite Hformat. cbn [lift bind]. split.
  - unfold safe_send_message. cbn [bind exec]. rewrite Hsent. reflexivity.
  - intros m. rewrite exec_then_ret.
    rewrite (safe_send_message_scheduled w n _ _ _ _ _ sent m Hsent).
    change (truthy (Some 60)) with true. cbv iota. apply app_nil_r.
Qed.

(** X8.  The usage text sent for a missing argument is scheduled for
    deletion after 60, whatever the delete-messages setting, and the
    invoking message is never scheduled with it, whatever the
    delete-invoking setting. *)
Theorem usage_text_expires (self : MusicBot) (message : Message)
    (command : string) (handler : Handler) (tokens : list string)
    (w : Oracle) (tr : list Event) (st : Binding) (i : nat) (p : Param)
    (text : string) (sent : Message) :
  let cfg := config self in
  let g := permissions self (author message) in
  resolve self message = Some (command, handler, tokens) ->
  NoDup (param_name <$> handler_params handler) ->
  exec w 1 (bind_context message g (mkBinding (handler_params handler) ∅ tokens []))
  = (tr, Ok st) ->
  positional handler !! i = Some p -> param_default p = None ->
  (length tokens <= i)%nat ->
  permitted cfg message g command ->
  str_format (usage_docs cfg command handler (bind_positional (params st) st))
             (command_prefix cfg) = Ok text ->
  w (1 + length tr)%nat (E_send_message (channel message) (code_block text)) = Ok sent ->
  sent ≠ message ->
  scheduled sent (trace w (on_message self message)) = [Some 60] ∧
  scheduled message (trace w (on_message self message)) = [] ∧
  outcome w (on_message self message) = Ok tt.
Proof.
  intros cfg g Hres Hnd Hbind Hi Hdef Hlen Hperm Hformat Hsent Hne.
  destruct (bind_context_ok _ _ _ _ _ _ _ Hbind)
    as (Hparams & Hargs & _ & _ & _ & Hquiet).
  destruct Hquiet as (_ & _ & _ & _ & Hsched).
  cbn [params args] in Hparams, Hargs. fold (positional handler) in Hparams.
  assert (Hleft : p ∈ params (bind_positional (params st) st)).
  { apply (bind_positional_keeps _ _ i); rewrite ?Hparams, ?Hargs; try done.
    - by apply NoDup_positional.
    - by eapply list_elem_of_lookup_2. }
  destruct (exec_on_message_resolve w _ _ _ _ _ Hres) as (ev & Hev & Hrun).
  destruct Hev as (_ & _ & _ & _ & Hev_sched).
  pose proof (dispatch_body_passes w 1 cfg message g command handler tokens tr st
                Hbind (gate_permitted _ _ _ _ Hperm)) as Hbody.
  cbn zeta in Hbody.
  destruct (params (bind_positional (params st) st)) as [| q rest] eqn:Hps.
  { by apply elem_of_nil in Hleft. }
  destruct (send_usage_run w (1 + length tr) cfg message command handler
              (bind_positional (params st) st) text sent Hformat Hsent)
    as [Hdone Husage].
  destruct (exec w (1 + length tr) (send_usage _ _ _ _ _)) as [tr' r].
  cbn [fst snd] in Hdone, Husage. subst r.
  unfold trace, outcome. rewrite Hrun. cbn [fst snd]. fold cfg g.
  rewrite exec_dispatch, Hbody. cbn [fst snd].
  change (ev :: tr ++ tr') with ([ev] ++ tr ++ tr').
  unfold scheduled in *.
  rewrite !omap_app, (Hev_sched sent), (Hev_sched message), (Hsched sent),
    (Hsched message), (Husage sent), (Husage message).
  rewrite (decide_True (P := sent = sent)) by done.
  rewrite (decide_False (P := sent = message)) by done. done.
Qed.

End Usage_properties.

(** * More of the handlers *)

Section Handler_properties.
Context {L : Library}.

(** X13.  The roll handler on any integer literal, the die being fair:
    below 1 a face of the six-sided die behind the notice [I don't know
    what you wanted to roll. I rolled a 6-sided die instead], above 1000 a
    face of the thousand-sided die behind the notice [Too many sides. I
    rolled a 1000-sided die instead], and from 1 to 1000 a face between 1
    and the number, without notice.  A notice is the first line of the
    reply, the face is on the next. *)
Theorem roll_within_bounds (cfg : Config) (message : Message) (w : Oracle)
    (n : nat) (sides : Z) :
  fair w ->
  Text.int (argument_text cfg "roll" message) = Some sides ->
  (sides < 1 ->
   exists face, 1 <= face <= 6 ∧
     snd (exec w n (cmd_roll cfg message))
     = Ok (Some (mkResponse
                   ("I don't know what you wanted to roll. I rolled a 6-sided die instead"
                    +:+ String "010"%char
                          ("I rolled a **" +:+ Text.str_of_int face +:+ "**"))
                   false 20))) ∧
  (1000 < sides ->
   exists face, 1 <= face <= 1000 ∧
     snd (exec w n (cmd_roll cfg message))
     = Ok (Some (mkResponse
                   ("Too many sides. I rolled a 1000-sided die instead"
                    +:+ String "010"%char
                          ("I rolled a **" +:+ Text.str_of_int face +:+ "**"))
                   false 20))) ∧
  (1 <= sides <= 1000 ->
   exists face, 1 <= face <= sides ∧
     snd (exec w n (cmd_roll cfg message))
     = Ok (Some (mkResponse ("I rolled a **" +:+ Text.str_of_int face +:+ "**")
                   false 20))).
Proof.
  intros Hfair Hint. unfold cmd_roll. rewrite Hint. split; [|split]; intros Hs.
  - exists (w n (E_randint 1 6)). split; [by apply Hfair|].
    assert ((sides <? 1) = true) as -> by lia. exact (roll_draw w n _ _ _).
  - exists (w n (E_randint 1 1000)). split; [by apply Hfair|].
    assert ((sides <? 1) = false) as -> by lia.
    assert ((1000 <? sides) = true) as -> by lia. exact (roll_draw w n _ _ _).
  - exists (w n (E_randint 1 sides)). split; [apply Hfair; lia|].
    assert ((sides <? 1) = false) as -> by lia.
    assert ((1000 <? sides) = false) as -> by lia.
    exact (roll_draw w n 1 sides EmptyString).
Qed.

(** X14.  The comic handler on a text that is an integer literal: a number
    outside 1..1662 is answered by the range message without any fetch; a
    number inside it, written in digits only, fetches the page named by the
    text as it was typed; a number inside it written otherwise (a sign, an
    underscore) is answered by the message that asks for a number. *)
Theorem xkcd_number_cases (cfg : Config) (message : Message) (w : Oracle)
    (k : nat) (number : Z) :
  argument_text cfg "xkcd" message ≠ EmptyString ->
  Text.int (argument_text cfg "xkcd" message) = Some number ->
  (number <= 0 ∨ 1663 <= number ->
   cmd_xkcd cfg message
   = Ret (Some (mkResponse "It has to be between 1 and 1662!" false 20))) ∧
  (1 <= number <= 1662 -> Text.isdigit (argument_text cfg "xkcd" message) = true ->
   cmd_xkcd cfg message = xkcd_fetch (xkcd_url (argument_text cfg "xkcd" message)) ∧
   fetched (fst (exec w k (cmd_xkcd cfg message)))
   = [xkcd_url (argument_text cfg "xkcd" message)]) ∧
  (1 <= number <= 1662 -> Text.isdigit (argument_text cfg "xkcd" message) = false ->
   cmd_xkcd cfg message
   = Ret (Some (mkResponse "You have to put a number!" false 20))).
Proof.
  intros Hne Hint. unfold cmd_xkcd, int_of. rewrite Hint.
  destruct (argument_text cfg "xkcd" message) as [| c q] eqn:Hq; [done|].
  cbn [String.length Nat.eqb]. split; [|split].
  - intros Hout. destruct (Text.isdigit (String c q)); cbn [bind].
    + destruct (1 <=? number) eqn:H1; cbn [bind].
      * assert ((number <=? 1662) = false) as -> by lia.
        assert ((number <=? 0) = false) as -> by lia. cbn [bind].
        by assert ((1663 <=? number) = true) as -> by lia.
      * by assert ((number <=? 0) = true) as -> by lia.
    + destruct (number <=? 0) eqn:H0; cbn [bind]; [done|].
      by assert ((1663 <=? number) = true) as -> by lia.
  - intros Hin ->. cbn [bind].
    assert ((1 <=? number) = true) as -> by lia. cbn [bind].
    assert ((number <=? 1662) = true) as -> by lia. split; [reflexivity|].
    unfold xkcd_fetch, call. cbn [bind exec].
    destruct (w k (E_http_get _)) as [body | e]; cbn [lift bind]; [|reflexivity].
    destruct (img_attr body 1 "alt"); cbn [lift bind]; [|reflexivity].
    destruct (img_attr body 1 "src"); cbn [lift bind]; [|reflexivity].
    destruct (img_attr body 1 "title"); reflexivity.
  - intros Hin ->. cbn [bind].
    assert ((number <=? 0) = false) as -> by lia. cbn [bind].
    by assert ((1663 <=? number) = false) as -> by lia.
Qed.

End Handler_properties.

Section Timer_properties.
Context {L : Library}.




End Timer_properties.

(** * The other parts of the file *)

Section Vote_properties.

Lemma skippers_add_skippers (votes : list (string * string)) (s : SkipState) :
  skippers (add_skippers s votes) = list_to_set (votes.*1) ∪ skippers s.
Proof.
  revert s. induction votes as [| [voter msg] votes IH]; intros s.
  - cbn [add_skippers foldl fmap list_fmap]. unfold add_skippers. cbn [foldl].
    by rewrite list_to_set_nil, (left_id_L ∅ (∪)).
  - unfold add_skippers in *. cbn [foldl fmap list_fmap fst snd].
    rewrite IH. unfold add_skipper. cbn [fst skippers].
    rewrite list_to_set_cons.
    by rewrite (assoc_L (∪)), (comm_L (∪) (list_to_set _) {[voter]}).
Qed.

Lemma remove_dups_shorter (l : list string) :
  (length (remove_dups l) <= length l)%nat.
Proof.
  induction l as [| x l IH]; [done|]. cbn [remove_dups length].
  destruct (decide_rel elem_of x l); cbn [length]; lia.
Qed.

(** X16.  A vote to skip counts each voter once: the count that
    [add_skipper] returns is the count before when the voter has voted
    already, and one more when not. *)
Theorem skipper_counts_once (s : SkipState) (skipper msg : string) :
  (skipper ∈ skippers s -> snd (add_skipper s skipper msg) = skip_count s) ∧
  (skipper ∉ skippers s -> snd (add_skipper s skipper msg) = S (skip_count s)).
Proof.
  unfold add_skipper, skip_count. cbn [snd skippers]. split; intros Hin.
  - f_equal. by apply subseteq_union_1_L, singleton_subseteq_l.
  - rewrite size_union by by apply disjoint_singleton_l. by rewrite size_singleton.
Qed.

(** X17.  After [reset], a series of votes gives as count the number of
    distinct voters in it, at most the number of votes; and without reset
    a series of votes never lowers the count. *)
Theorem votes_counted_by_voter (s : SkipState) (votes : list (string * string)) :
  skip_count (add_skippers (reset s) votes) = length (remove_dups (votes.*1)) ∧
  (skip_count (add_skippers (reset s) votes) <= length votes)%nat ∧
  (skip_count s <= skip_count (add_skippers s votes))%nat.
Proof.
  unfold skip_count. rewrite !skippers_add_skippers. cbn [reset skippers].
  rewrite (right_id_L ∅ (∪)).
  assert (size (list_to_set (C := gset string) (votes.*1))
          = length (remove_dups (votes.*1))) as Hsize.
  { rewrite <- (size_list_to_set (C := gset string) (remove_dups (votes.*1)))
      by apply NoDup_remove_dups.
    f_equal. apply set_eq. intros x.
    by rewrite !elem_of_list_to_set, elem_of_remove_dups. }
  split; [exact Hsize|]. split.
  - rewrite Hsize, <- (length_fmap fst votes). apply remove_dups_shorter.
  - apply subseteq_size, union_subseteq_r.
Qed.

End Vote_properties.

Section Signal_properties.
Context {L : Library}.

(** X18.  The shutdown and restart handlers send the goodbye to the
    channel and raise their signal, also when the platform refuses the
    goodbye as forbidden or not found; no deletion is scheduled.  Neither
    handler looks at who asks. *)
Theorem goodbye_then_signal (w : Oracle) (n : nat) (dest : Channel) :
  match w n (E_send_message dest ":wave:") with
  | Ok _ | Err (Builtin Forbidden) | Err (Builtin NotFound) => True
  | Err _ => False
  end ->
  snd (exec w n (cmd_shutdown dest)) = Err (Signal TerminateSignal) ∧
  snd (exec w n (cmd_restart dest)) = Err (Signal RestartSignal) ∧
  sent_texts (fst (exec w n (cmd_shutdown dest))) = [(dest, ":wave:")] ∧
  sent_texts (fst (exec w n (cmd_restart dest))) = [(dest, ":wave:")] ∧
  forall m, scheduled m (fst (exec w n (cmd_shutdown dest))) = [] ∧
            scheduled m (fst (exec w n (cmd_restart dest))) = [].
Proof.
  unfold cmd_shutdown, cmd_restart, safe_send_message.
  change (truthy (Some 0)) with false. cbn [bind exec].
  destruct (w n (E_send_message dest ":wave:")) as [m | [c t x | c | []]];
    try done; intros _; repeat split.
Qed.

Lemma random_choice_member (w : Oracle) (n : nat) (seq : list string) :
  fair w -> seq ≠ [] ->
  exists x, x ∈ seq ∧
    exec w n (random_choice seq)
    = ([Ev (E_randint 0 (Z.of_nat (length seq) - 1))
           (w n (E_randint 0 (Z.of_nat (length seq) - 1)))], Ok x).
Proof.
  intros Hfair Hne. destruct seq as [| a seq']; [done|].
  unfold random_choice. cbn [bind perform exec].
  set (i := w n (E_randint 0 (Z.of_nat (length (a :: seq')) - 1))).
  assert (0 <= i <= Z.of_nat (length (a :: seq')) - 1) as Hi.
  { apply Hfair. cbn [length]. lia. }
  destruct (lookup_lt_is_Some_2 (a :: seq') (Z.to_nat i)) as [x Hx]; [lia|].
  exists x. split; [by eapply list_elem_of_lookup_2|].
  change (bind (Ret i) ?f) with (f i). cbv beta. rewrite Hx. reflexivity.
Qed.

Lemma split_on_nonempty (sep : ascii) (s : string) : Text.split_on sep s ≠ [].
Proof.
  destruct s as [| c s']; [done|]. cbn [Text.split_on].
  destruct (decide (c = sep)); [done|]. by destruct (Text.split_on sep s').
Qed.

(** X19.  The die being fair, the choice handler answers with one of the
    pieces between the semicolons of its text, and with the request for
    choices when the text is empty; the coin flip answers heads or
    tails. *)
Theorem choice_among_options (cfg : Config) (message : Message) (w : Oracle) (n : nat) :
  fair w ->
  (argument_text cfg "choice" message = EmptyString ->
   exec w n (cmd_choice cfg message)
   = ([], Ok (Some (mkResponse "I don't see any choices to make" false 20)))) ∧
  (argument_text cfg "choice" message ≠ EmptyString ->
   exists chosen,
     chosen ∈ Text.split_on ";" (argument_text cfg "choice" message) ∧
     snd (exec w n (cmd_choice cfg message))
     = Ok (Some (mkResponse ("I choose **" +:+ chosen +:+ "**") false 20))) ∧
  (snd (exec w n (cmd_coinflip message))
   = Ok (Some (mkResponse "I flipped a **heads**" false 20)) ∨
   snd (exec w n (cmd_coinflip message))
   = Ok (Some (mkResponse "I flipped a **tails**" false 20))).
Proof.
  intros Hfair. split; [|split].
  - intros Hempty. unfold cmd_choice. cbv zeta. by rewrite Hempty.
  - intros Hne. unfold cmd_choice. cbv zeta.
    destruct (argument_text cfg "choice" message) as [| c q] eqn:Hq; [done|].
    cbn [String.length Nat.eqb].
    destruct (random_choice_member w n (Text.split_on ";" (String c q)) Hfair
                (split_on_nonempty _ _)) as (x & Hin & Hrun).
    exists x. split; [exact Hin|]. rewrite exec_bind, Hrun. reflexivity.
  - unfold cmd_coinflip.
    destruct (random_choice_member w n ["heads"; "tails"] Hfair ltac:(done))
      as (x & Hin & Hrun).
    rewrite exec_bind, Hrun. cbn [exec snd].
    apply elem_of_cons in Hin as [-> | Hin]; [by left|].
    apply list_elem_of_singleton in Hin as ->. by right.
Qed.

End Signal_properties.

Section Chat_properties.
Context {L : Library}.

(** X20.  The say handler echoes: on a message that is the prefix, the
    keyword and a text in which prefix and keyword do not occur again, the
    reply is that text without the blanks around it, to be deleted after
    20. *)
Theorem say_echoes (cfg : Config) (message : Message) (rest : string) :
  content message = command_prefix cfg +:+ "say" +:+ rest ->
  Text.contains (command_prefix cfg +:+ "say") rest = false ->
  cmd_say cfg message = Ret (Some (mkResponse (Text.strip rest) false 20)).
Proof.
  intros Hcontent Habsent. unfold cmd_say, argument_text.
  rewrite Hcontent, <- append_assoc, replace_in_front; [done | | done].
  destruct (command_prefix cfg); [done|]. by rewrite append_cons.
Qed.

(** X21.  A text without the command prefix, from an account that is no
    bot: without the mention of the bot nothing happens; with it the text
    less the mention goes to the chat service and the answer, behind the
    mention of the author, to the channel, whatever the channel binding,
    the kind of channel and the author; no handler is called and nothing
    is scheduled for deletion.  An error of the chat service leaves the
    router. *)
Theorem mention_is_answered (w : Oracle) (self : MusicBot) (message : Message) :
  let text := Text.strip (content message) in
  let question := Text.strip (Text.replace bot_mention EmptyString text) in
  user_bot (author message) = false ->
  Text.startswith text (command_prefix (config self)) = false ->
  (Text.contains bot_mention text = false ->
   exec w O (on_message self message) = ([], Ok tt)) ∧
  (Text.contains bot_mention text = true ->
   invocations (trace w (on_message self message)) = [] ∧
   (forall m, scheduled m (trace w (on_message self message)) = []) ∧
   match w O (E_cleverbot_ask question) with
   | Ok reply =>
       sent_texts (trace w (on_message self message))
       = [(channel message, user_mention (author message) +:+ " " +:+ reply)]
   | Err e =>
       sent_texts (trace w (on_message self message)) = [] ∧
       outcome w (on_message self message) = Err e
   end).
Proof.
  intros text question Hbot Hprefix. unfold on_message, trace, outcome. cbv zeta.
  rewrite Hbot. fold text. rewrite Hprefix. cbn [negb]. unfold cleverbot_path.
  split; intros ->; [reflexivity|]. cbv zeta. fold question.
  unfold call, safe_send_message. change (truthy (Some 0)) with false.
  cbn [bind exec when].
  destruct (w O (E_cleverbot_ask question)) as [reply | e]; cbn [bind exec when lift].
  - destruct (w 1%nat (E_send_message _ _)) as [m | [c t x | c | []]];
      cbn [bind exec when negb perform]; repeat split.
  - repeat split.
Qed.

(** X22.  A handler wrapped in [owner_only], called through the router
    by somebody else than the owner: the wrapped function does not run,
    the caller is told that only the owner can use the command, and that
    text is scheduled for deletion after 30 when the delete-messages
    setting is on. *)
Theorem owner_only_refuses_others (w : Oracle) (self : MusicBot) (message : Message)
    (command : string) (handler : Handler) (tokens : list string)
    (tr : list Event) (st : Binding) (func : Prog (option Response))
    (w' : Oracle) (k : nat) :
  reaches_handler w self message command handler tokens tr st ->
  user_id (author message) ≠ owner_id (config self) ->
  w (1 + length tr)%nat (E_handler command (kwargs_at_call st))
  = snd (exec w' k (owner_only (config self) (Some message) func)) ->
  fst (exec w' k (owner_only (config self) (Some message) func)) = [] ∧
  sent_texts (trace w (on_message self message))
  = [(channel message, code_block "Only the owner can use this command")] ∧
  forall sent,
    w (3 + length tr)%nat
      (E_send_message (channel message)
         (code_block "Only the owner can use this command")) = Ok sent ->
    sent ≠ message ->
    scheduled sent (trace w (on_message self message))
    = (if delete_messages (config self) then [Some 30] else []).
Proof.
  intros Hreach Hother. unfold owner_only.
  rewrite (bool_decide_eq_false_2 _ Hother). cbn [exec fst snd]. intros Hcall.
  destruct (failure_run w self message command handler tokens tr st
              PermissionsError "Only the owner can use this command" 30 Hreach Hcall)
    as [-> Hsched].
  split; [done|]. split; [apply safe_send_message_sent|]. intros sent Hok Hne.
  rewrite Hsched, (safe_send_message_scheduled w _ _ _ _ _ _ sent sent Hok).
  rewrite (decide_True (P := sent = sent)) by done.
  destruct (delete_messages (config self)), (delete_invoking (config self));
    cbn [truthy];
    rewrite ?(decide_False (P := message = sent)) by done; done.
Qed.

End Chat_properties.

(** * The properties on runs *)

Module Scenarios.
Import Demo Cases.

Ltac decided := refine (bool_decide_unpack _ _); vm_compute; exact I.

Lemma rolling_reaches (w : Oracle) :
  reaches_handler w (bot everyone) rolling "roll" sig_roll ["20"] []
    (with_message rolling ["20"]).
Proof.
  split; [vm_compute; reflexivity|]. split; [vm_compute; reflexivity|].
  split; [|reflexivity]. right. split; left; vm_compute; reflexivity.
Defined.

Lemma leaving_reaches (w : Oracle) :
  reaches_handler w (bot everyone) leaving "shutdown" sig_shutdown []
    [] (with_channel lobby []).
Proof.
  split; [vm_compute; reflexivity|]. split; [vm_compute; reflexivity|].
  split; [|reflexivity]. right. split; left; vm_compute; reflexivity.
Defined.

Lemma unknown_command_witness :
  exec (linked (bot everyone)) O (on_message (bot everyone) dancing) = ([], Ok tt).
Proof.
  apply (unknown_command_ignored (linked (bot everyone)) (bot everyone) dancing
           "!dance" ["now"]); vm_compute; reflexivity.
Defined.

Lemma private_message_witness :
  user_id (author whisper) = owner_id (config (bot everyone)) ∧
  sent_texts (trace (linked (bot everyone)) (on_message (bot everyone) whisper))
  = [(direct, "You cannot use this bot in private messages.")] ∧
  invocations (trace (linked (bot everyone)) (on_message (bot everyone) whisper)) = [].
Proof.
  split; [reflexivity|].
  pose proof (private_message_refused (linked (bot everyone)) (bot everyone) whisper
                "!help" [] sig_help ltac:(vm_compute; reflexivity)
                ltac:(vm_compute; reflexivity) eq_refl
                ltac:(vm_compute; reflexivity) ltac:(vm_compute; reflexivity))
    as (Hsent & Hinv & _).
  split; [exact Hsent | exact Hinv].
Defined.

Lemma owner_gate_witness :
  "roll" ∈ command_blacklist (permissions strict_bot (author owner_rolls)) ∧
  invocations (trace (platform None) (on_message strict_bot owner_rolls))
  = [("roll", {["message" := VMessage owner_rolls]})].
Proof.
  split; [decided|].
  exact (owner_passes_the_gate (platform None) strict_bot owner_rolls "roll" sig_roll
           ["20"] [] (with_message owner_rolls ["20"]) eq_refl
           ltac:(vm_compute; reflexivity) ltac:(vm_compute; reflexivity) eq_refl).
Defined.

Lemma signal_witness :
  outcome (failing (Signal TerminateSignal)) (on_message (bot everyone) leaving)
  = Err (Signal TerminateSignal) ∧
  sent_texts (trace (failing (Signal TerminateSignal))
                (on_message (bot everyone) leaving)) = [].
Proof.
  pose proof (signal_leaves_the_router (failing (Signal TerminateSignal))
                (bot everyone) leaving "shutdown" sig_shutdown [] []
                (with_channel lobby []) TerminateSignal
                (leaving_reaches _) eq_refl) as (Hout & Hsent & _).
  split; [exact Hout | exact Hsent].
Defined.


Lemma failure_witness :
  sent_texts (trace (failing refusal) (on_message (bot everyone) rolling))
  = [(lobby, code_block "Only the owner can use this command")] ∧
  scheduled (posted 3 lobby (code_block "Only the owner can use this command"))
    (trace (failing refusal) (on_message (bot everyone) rolling)) = [Some 30] ∧
  scheduled rolling (trace (failing refusal) (on_message (bot everyone) rolling))
  = [Some 30].
Proof.
  pose proof (handler_failure_reported (failing refusal) (bot everyone) rolling
                "roll" sig_roll ["20"] [] (with_message rolling ["20"])
                PermissionsError "Only the owner can use this command" 30
                (rolling_reaches _) eq_refl) as [Hsent Hsched].
  split; [exact Hsent|].
  exact (Hsched (posted 3 lobby (code_block "Only the owner can use this command"))
           eq_refl ltac:(decided)).
Defined.

Lemma usage_expiry_witness :
  delete_messages (config quiet_bot) = false ∧
  delete_invoking (config quiet_bot) = true ∧
  scheduled (posted 1 lobby (code_block setname_usage))
    (trace (linked quiet_bot) (on_message quiet_bot nameless)) = [Some 60] ∧
  scheduled nameless (trace (linked quiet_bot) (on_message quiet_bot nameless)) = [].
Proof.
  split; [reflexivity|]. split; [reflexivity|].
  pose proof (usage_text_expires quiet_bot nameless "setname" sig_setname []
                (linked quiet_bot) []
                (mkBinding [mkParam "name" None] {["leftover_args" := VArgs]} [] [])
                O (mkParam "name" None) setname_usage
                (posted 1 lobby (code_block setname_usage))) as H.
  cbv zeta in H.
  assert (Hnd : NoDup (param_name <$> handler_params sig_setname)) by decided.
  assert (Hperm : permitted (config quiet_bot) nameless
                    (permissions quiet_bot (author nameless)) "setname").
  { right. split; left; vm_compute; reflexivity. }
  destruct (H ltac:(vm_compute; reflexivity) Hnd ltac:(vm_compute; reflexivity)
              eq_refl eq_refl ltac:(cbn; lia) Hperm ltac:(vm_compute; reflexivity)
              eq_refl ltac:(decided)) as (Hsent & Hmsg & _).
  split; [exact Hsent | exact Hmsg].
Defined.

Lemma no_reply_witness :
  outcome (platform None) (on_message (bot everyone) rolling) = Ok tt ∧
  sent_texts (trace (platform None) (on_message (bot everyone) rolling)) = [] ∧
  scheduled rolling (trace (platform None) (on_message (bot everyone) rolling)) = [].
Proof.
  pose proof (no_reply_nothing_sent (platform None) (bot everyone) rolling
                "roll" sig_roll ["20"] [] (with_message rolling ["20"])
                (rolling_reaches _) eq_refl) as (Hout & Hsent & Hsched).
  split; [exact Hout|]. split; [exact Hsent | exact (Hsched rolling)].
Defined.


Lemma refused_send_witness :
  snd (exec (refusing Forbidden) O
         (safe_send_message lobby "hello" (Some 20) (Some rolling) false)) = Ok None ∧
  scheduled rolling
    (fst (exec (refusing Forbidden) O
            (safe_send_message lobby "hello" (Some 20) (Some rolling) false))) = [].
Proof.
  pose proof (refused_send_is_swallowed (refusing Forbidden) O lobby "hello"
                (Some 20) (Some rolling) false (Builtin Forbidden) eq_refl)
    as [[Hnone _] Hsched].
  split; [exact Hnone | exact (Hsched rolling)].
Defined.

Lemma zero_delay_witness :
  scheduled (posted 2 lobby "<@2000>, You are welcome")
    (trace (platform (Some thanks)) (on_message (bot everyone) rolling)) = [].
Proof.
  exact (zero_delay_reply_stays (platform (Some thanks)) (bot everyone) rolling
           "roll" sig_roll ["20"] [] (with_message rolling ["20"]) thanks
           (posted 2 lobby "<@2000>, You are welcome")
           (rolling_reaches _) eq_refl eq_refl eq_refl ltac:(decided)).
Defined.

Lemma roll_bounds_witness :
  (exists face, 1 <= face <= 6 ∧
     snd (exec (platform None) O
            (cmd_roll (settings true true) (says guest lobby "!roll -3")))
     = Ok (Some (mkResponse
                   ("I don't know what you wanted to roll. I rolled a 6-sided die instead"
                    +:+ String "010"%char
                          ("I rolled a **" +:+ Text.str_of_int face +:+ "**"))
                   false 20))) ∧
  (exists face, 1 <= face <= 1000 ∧
     snd (exec (platform None) O
            (cmd_roll (settings true true) (says guest lobby "!roll 1001")))
     = Ok (Some (mkResponse
                   ("Too many sides. I rolled a 1000-sided die instead"
                    +:+ String "010"%char
                          ("I rolled a **" +:+ Text.str_of_int face +:+ "**"))
                   false 20))) ∧
  (exists face, 1 <= face <= 20 ∧
     snd (exec (platform None) O (cmd_roll (settings true true) rolling))
     = Ok (Some (mkResponse ("I rolled a **" +:+ Text.str_of_int face +:+ "**")
                   false 20))).
Proof.
  destruct (roll_within_bounds (settings true true) (says guest lobby "!roll -3")
              (platform None) O (-3) (Run.platform_fair None)
              ltac:(vm_compute; reflexivity)) as (Hlow & _ & _).
  destruct (roll_within_bounds (settings true true) (says guest lobby "!roll 1001")
              (platform None) O 1001 (Run.platform_fair None)
              ltac:(vm_compute; reflexivity)) as (_ & Hhigh & _).
  destruct (roll_within_bounds (settings true true) rolling (platform None) O 20
              (Run.platform_fair None) ltac:(vm_compute; reflexivity))
    as (_ & _ & Hin).
  split; [exact (Hlow ltac:(lia))|]. split; [exact (Hhigh ltac:(lia))|].
  exact (Hin ltac:(lia)).
Defined.

Lemma xkcd_range_witness :
  cmd_xkcd (settings true true) (says guest lobby "!xkcd 5000")
  = Ret (Some (mkResponse "It has to be between 1 and 1662!" false 20)) ∧
  fetched (fst (exec (platform None) O
                  (cmd_xkcd (settings true true) (says guest lobby "!xkcd 149"))))
  = ["https://xkcd.com/149/"] ∧
  cmd_xkcd (settings true true) (says guest lobby "!xkcd +149")
  = Ret (Some (mkResponse "You have to put a number!" false 20)).
Proof.
  split; [|split].
  - destruct (xkcd_number_cases (settings true true) (says guest lobby "!xkcd 5000")
                (platform None) O 5000 ltac:(vm_compute; discriminate)
                ltac:(vm_compute; reflexivity)) as (Hout & _ & _).
    exact (Hout ltac:(lia)).
  - destruct (xkcd_number_cases (settings true true) (says guest lobby "!xkcd 149")
                (platform None) O 149 ltac:(vm_compute; discriminate)
                ltac:(vm_compute; reflexivity)) as (_ & Hin & _).
    destruct (Hin ltac:(lia) ltac:(vm_compute; reflexivity)) as [_ Hfetch].
    exact Hfetch.
  - destruct (xkcd_number_cases (settings true true) (says guest lobby "!xkcd +149")
                (platform None) O 149 ltac:(vm_compute; discriminate)
                ltac:(vm_compute; reflexivity)) as (_ & _ & Hsign).
    exact (Hsign ltac:(lia) ltac:(vm_compute; reflexivity)).
Defined.



Lemma skipper_witness :
  snd (add_skipper (fst (add_skipper new_skip_state "2000" "500")) "2000" "501") = 1%nat ∧
  snd (add_skipper (fst (add_skipper new_skip_state "2000" "500")) "1000" "502") = 2%nat.
Proof.
  destruct (skipper_counts_once (fst (add_skipper new_skip_state "2000" "500"))
              "2000" "501") as [Hsame _].
  destruct (skipper_counts_once (fst (add_skipper new_skip_state "2000" "500"))
              "1000" "502") as [_ Hnew].
  split; [exact (Hsame ltac:(decided)) | exact (Hnew ltac:(decided))].
Defined.

Lemma goodbye_witness :
  snd (exec (refusing Forbidden) O (cmd_shutdown lobby)) = Err (Signal TerminateSignal) ∧
  snd (exec (refusing Forbidden) O (cmd_restart lobby)) = Err (Signal RestartSignal).
Proof.
  destruct (goodbye_then_signal (refusing Forbidden) O lobby I) as (Hdown & Hagain & _).
  split; [exact Hdown | exact Hagain].
Defined.

Lemma choice_witness :
  exists chosen,
    chosen ∈ ["tea"; "coffee"] ∧
    snd (exec (platform None) O
           (cmd_choice (settings true true) (says guest lobby "!choice tea;coffee")))
    = Ok (Some (mkResponse ("I choose **" +:+ chosen +:+ "**") false 20)).
Proof.
  destruct (choice_among_options (settings true true)
              (says guest lobby "!choice tea;coffee") (platform None) O
              (Run.platform_fair None)) as (_ & Hsome & _).
  exact (Hsome ltac:(vm_compute; discriminate)).
Defined.

Lemma say_witness :
  cmd_say (settings true true) (says guest lobby "!say  an essay ")
  = Ret (Some (mkResponse "an essay" false 20)).
Proof.
  exact (say_echoes (settings true true) (says guest lobby "!say  an essay ")
           "  an essay " eq_refl ltac:(vm_compute; reflexivity)).
Defined.

Lemma mention_witness :
  is_private (channel greeting) = true ∧
  sent_texts (trace (platform None) (on_message bound_bot greeting))
  = [(direct, "<@2000> Hello.")].
Proof.
  split; [reflexivity|].
  pose proof (mention_is_answered (platform None) bound_bot greeting) as H.
  cbv zeta in H.
  destruct (H eq_refl ltac:(vm_compute; reflexivity)) as [_ Hmention].
  destruct (Hmention ltac:(vm_compute; reflexivity)) as (_ & _ & Hsent).
  exact Hsent.
Defined.

Lemma owner_only_witness :
  sent_texts (trace (failing refusal) (on_message (bot everyone) rolling))
  = [(lobby, code_block "Only the owner can use this command")] ∧
  scheduled (posted 3 lobby (code_block "Only the owner can use this command"))
    (trace (failing refusal) (on_message (bot everyone) rolling)) = [Some 30].
Proof.
  pose proof (owner_only_refuses_others (failing refusal) (bot everyone) rolling
                "roll" sig_roll ["20"] [] (with_message rolling ["20"])
                (cmd_roll (settings true true) rolling) (platform None) O
                (rolling_reaches _) ltac:(decided) eq_refl) as (_ & Hsent & Hsched).
  split; [exact Hsent|].
  exact (Hsched (posted 3 lobby (code_block "Only the owner can use this command"))
           eq_refl ltac:(decided)).
Defined.

End Scenarios.
